(** * GoReleaser (src/go.ts): a shallow embedding and its properties

    The release helper of jsii-release discovers Go modules in a staging
    directory, resolves the GitHub repository they belong to, mirrors the
    staged content into a clone of that repository, commits, tags and
    pushes.  The embedding below follows [src/go.ts] function by function.

    Conventions of the model:
    - a path is the list of its segments, as [path.join] normalises it,
      absolute or relative; [path.join(d, name)] appends one segment,
      [path.basename] takes the last one, and a relative path is resolved
      against the working directory of the process each time it is used;
    - the file system is a tree; a directory is an association list in
      listing order ([fs.readdirSync] order);
    - the code runs in a state-and-exception monad over a machine made of
      the world (file system, working directory, the state of git and of
      the remote) and the chronological list of observable events (every
      command handed to [utils.shell] with its exit status, every line
      written with [console.log]);
    - what [utils.ts] gets from the operating system (running a command,
      looking a program up, making a temporary directory) is a parameter,
      the [Host]. *)

From Stdlib Require Import String Ascii List Bool Arith Lia.
Import ListNotations.

Set Warnings "-register-all".
Local Open Scope list_scope.

Notation "a +++ b" := (String.append a b) (at level 60, right associativity).

(** ** JavaScript strings *)

Module Js.

(** [s.split(sep)] for a one-character separator: never empty. *)
Fixpoint split (sep : ascii) (s : string) : list string :=
  match s with
  | EmptyString => [EmptyString]
  | String c r =>
      if Ascii.eqb c sep then EmptyString :: split sep r
      else match split sep r with
           | [] => [String c EmptyString]
           | h :: t => String c h :: t
           end
  end.

(** [s.startsWith(p)] *)
Definition startsWith (s p : string) : bool := String.prefix p s.

Definition lower_ascii (c : ascii) : ascii :=
  let n := nat_of_ascii c in
  if andb (65 <=? n) (n <=? 90) then ascii_of_nat (n + 32) else c.

(** [s.toLowerCase()] on ASCII text. *)
Fixpoint toLowerCase (s : string) : string :=
  match s with
  | EmptyString => EmptyString
  | String c r => String (lower_ascii c) (toLowerCase r)
  end.

(** A template literal prints a missing array element as [undefined]. *)
Definition interpolate (o : option string) : string :=
  match o with
  | Some s => s
  | None => "undefined"%string
  end.

(** Truthiness of [string | undefined]: only a non-empty string is true. *)
Definition truthy (o : option string) : bool :=
  match o with
  | Some s => negb (String.eqb s EmptyString)
  | None => false
  end.

(** [a ?? b] *)
Definition nullish {A : Type} (o : option A) (d : A) : A :=
  match o with
  | Some a => a
  | None => d
  end.

(** A [Set<string>] in insertion order. *)
Definition mem (x : string) (s : list string) : bool :=
  existsb (String.eqb x) s.

Definition set_add (s : list string) (x : string) : list string :=
  if mem x s then s else s ++ [x].

End Js.

(** The double quote character of a command line. *)
Definition dquote : ascii := "034"%char.

(** The line separator of a text file. *)
Definition newline : ascii := "010"%char.

(** ** Paths *)

(** A place in the file system: the names from the root down. *)
Definition location := list string.

(** A path as the code holds it: absolute, or relative to the working
    directory the process has when the path is used. *)
Inductive path : Type :=
| Abs (l : location)
| Rel (l : location).

Definition steps (p : path) : location :=
  match p with
  | Abs l => l
  | Rel l => l
  end.

(** [path.join(d, name)] for a plain name. *)
Definition join (d : path) (name : string) : path :=
  match d with
  | Abs l => Abs (l ++ [name])
  | Rel l => Rel (l ++ [name])
  end.

(** [path.basename(p)]: the last segment; the empty relative path is the
    text [.], whose base name is [.], and the root has none. *)
Definition basename (p : path) : string :=
  match p with
  | Rel [] => "."
  | _ => last (steps p) EmptyString
  end.

(** The text of a path, as it appears in messages and command lines. *)
Definition render (p : path) : string :=
  match p with
  | Abs l => "/" +++ String.concat "/" l
  | Rel [] => "."
  | Rel l => String.concat "/" l
  end.

(** Where a path leads from the working directory [cwd]. *)
Definition resolve (cwd : location) (p : path) : location :=
  match p with
  | Abs l => l
  | Rel l => cwd ++ l
  end.

(** The segments of a slash-separated text ([path.basename] and
    [path.join] ignore empty segments). *)
Definition segments (s : string) : location :=
  filter (fun x => negb (String.eqb x EmptyString)) (Js.split "/" s).

(** [path.basename(s)] on a slash-separated text: its last non-empty
    segment, and the empty text when it has none. *)
Definition basename_of_text (s : string) : string :=
  last (segments s) EmptyString.

(** ** The file system *)

Inductive node : Type :=
| File (content : string)
| Dir (entries : list (string * node)).

Fixpoint lookup (x : string) (es : list (string * node)) : option node :=
  match es with
  | [] => None
  | (y, c) :: r => if String.eqb x y then Some c else lookup x r
  end.

Fixpoint fs_get (t : node) (p : location) {struct p} : option node :=
  match p with
  | [] => Some t
  | x :: q =>
      match t with
      | Dir es =>
          match lookup x es with
          | Some c => fs_get c q
          | None => None
          end
      | File _ => None
      end
  end.

(** Why nothing is found at [p]: a name is missing ([ENOENT]), or the path
    runs through a regular file ([ENOTDIR]). *)
Fixpoint fs_errno (t : node) (p : location) {struct p} : string :=
  match p with
  | [] => "ENOENT"
  | x :: q =>
      match t with
      | Dir es =>
          match lookup x es with
          | Some c => fs_errno c q
          | None => "ENOENT"
          end
      | File _ => "ENOTDIR"
      end
  end.

Fixpoint replace_entry (x : string) (f : node -> node)
    (es : list (string * node)) : list (string * node) :=
  match es with
  | [] => []
  | (y, c) :: r =>
      if String.eqb x y then (y, f c) :: r else (y, c) :: replace_entry x f r
  end.

(** Rewrite the node found at [p]; nothing happens when [p] is absent. *)
Fixpoint fs_update (t : node) (p : location) (f : node -> node) {struct p}
  : node :=
  match p with
  | [] => f t
  | x :: q =>
      match t with
      | Dir es => Dir (replace_entry x (fun c => fs_update c q f) es)
      | File _ => t
      end
  end.

Definition names (es : list (string * node)) : list string := map fst es.

Definition keep_names (keep : string -> bool) (es : list (string * node))
  : list (string * node) :=
  filter (fun e => keep (fst e)) es.

Definition clear_dir (exclude : list string) (t : node) : node :=
  match t with
  | Dir es => Dir (keep_names (fun n => Js.mem n exclude) es)
  | File _ => t
  end.

Definition drop_entry (x : string) (t : node) : node :=
  match t with
  | Dir es => Dir (keep_names (fun n => negb (String.eqb n x)) es)
  | File _ => t
  end.

(** ** Errors, events and the machine *)

Inductive exn : Type :=
| Error (msg : string)
| TypeError (msg : string)
| ShellError (cmd : string) (status : nat)
| SystemError (code : string) (p : path).

Inductive event : Type :=
| Exec (cmd : string) (status : nat)
| Log (line : string).

Inductive outcome (A : Type) : Type :=
| Ret (a : A)
| Throw (e : exn).

Arguments Ret {A} a.
Arguments Throw {A} e.

(** [process.env], as far as [go.ts] reads it. *)
Record Env : Type := {
  VERSION : option string;
  GIT_BRANCH : option string;
  DRY_RUN : option string;
  GIT_USER_NAME : option string;
  GIT_USER_EMAIL : option string;
  GIT_COMMIT_MESSAGE : option string;
  GITHUB_TOKEN : option string
}.

(** [GoRelease]: the tags the release created, when it created any. *)
Record GoRelease : Type := { tags : option (list string) }.

Record World (E : Type) : Type := {
  fs : node;
  cwd : location;
  ext : E
}.

Arguments fs {E} w.
Arguments cwd {E} w.
Arguments ext {E} w.

Record Machine (E : Type) : Type := {
  world : World E;
  events : list event
}.

Arguments world {E} m.
Arguments events {E} m.

(** What the operating system does for [utils.shell], [utils.which],
    [os.tmpdir] and [fs.mkdtempSync]. *)
Record Host (E : Type) : Type := {
  exec : string -> World E -> nat * string * World E;
  has_program : string -> World E -> bool;
  tmpdir : string;
  mkdtemp : string -> World E -> option location * World E
}.

Arguments exec {E} h cmd w.
Arguments has_program {E} h cmd w.
Arguments tmpdir {E} h.
Arguments mkdtemp {E} h prefix w.

(** Where a path leads on a machine. *)
Definition locate {E : Type} (m : Machine E) (p : path) : location :=
  resolve (cwd (world m)) p.

Definition M (E A : Type) : Type := Machine E -> outcome A * Machine E.

Definition ret {E A : Type} (a : A) : M E A := fun m => (Ret a, m).

Definition throw {E A : Type} (e : exn) : M E A := fun m => (Throw e, m).

Definition bind {E A B : Type} (c : M E A) (k : A -> M E B) : M E B :=
  fun m =>
    match c m with
    | (Ret a, m') => k a m'
    | (Throw e, m') => (Throw e, m')
    end.

(** [try { c } catch (err) { h err }]: the handler runs in the state the
    failing block left behind. *)
Definition tryCatch {E A : Type} (c : M E A) (h : exn -> M E A) : M E A :=
  fun m =>
    match c m with
    | (Ret a, m') => (Ret a, m')
    | (Throw e, m') => h e m'
    end.

Declare Scope go_scope.
Delimit Scope go_scope with go.

Notation "x <- c ;; k" := (bind c (fun x => k))
  (at level 61, c at next level, right associativity) : go_scope.
Notation "c ;; k" := (bind c (fun _ => k))
  (at level 61, right associativity) : go_scope.

Local Open Scope go_scope.

(** [l.forEach(f)] and [for (const x of l)] *)
Fixpoint forEach {E A : Type} (l : list A) (f : A -> M E unit) : M E unit :=
  match l with
  | [] => ret tt
  | x :: r => f x ;; forEach r f
  end.

(** [l.map(f)] for an effectful [f] *)
Fixpoint mapM {E A B : Type} (f : A -> M E B) (l : list A) : M E (list B) :=
  match l with
  | [] => ret []
  | x :: r => y <- f x ;; ys <- mapM f r ;; ret (y :: ys)
  end.

(** [a ?? c] where [c] is only run when [a] is undefined. *)
Definition nullishM {E A : Type} (o : option A) (c : M E A) : M E A :=
  match o with
  | Some a => ret a
  | None => c
  end.

(** A [for] loop that updates one local variable. *)
Fixpoint foldM {E A B : Type} (f : B -> A -> M E B) (l : list A) (b : B)
  : M E B :=
  match l with
  | [] => ret b
  | x :: r => b' <- f b x ;; foldM f r b'
  end.

(** ** The code of [go.ts] *)

Section Code.

Context {E : Type}.
Variable host : Host E.
Variable env : Env.

(** *** Node's [fs], [process] and [console] *)

Definition set_fs (f : node -> node) : M E unit :=
  fun m =>
    (Ret tt,
     {| world := {| fs := f (fs (world m));
                    cwd := cwd (world m);
                    ext := ext (world m) |};
        events := events m |}).

Definition existsSync (p : path) : M E bool :=
  fun m =>
    (Ret (match fs_get (fs (world m)) (locate m p) with
          | Some _ => true
          | None => false
          end),
     m).

Definition readdirSync (p : path) : M E (list string) :=
  fun m =>
    match fs_get (fs (world m)) (locate m p) with
    | Some (Dir es) => (Ret (names es), m)
    | Some (File _) => (Throw (SystemError "ENOTDIR" p), m)
    | None =>
        (Throw (SystemError (fs_errno (fs (world m)) (locate m p)) p), m)
    end.

Definition readFileSync (p : path) : M E string :=
  fun m =>
    match fs_get (fs (world m)) (locate m p) with
    | Some (File c) => (Ret c, m)
    | Some (Dir _) => (Throw (SystemError "EISDIR" p), m)
    | None =>
        (Throw (SystemError (fs_errno (fs (world m)) (locate m p)) p), m)
    end.

Definition mkdtempSync (prefix : string) : M E path :=
  fun m =>
    let '(r, w) := mkdtemp host prefix (world m) in
    let m' := {| world := w; events := events m |} in
    match r with
    | Some l => (Ret (Abs l), m')
    | None => (Throw (SystemError "EACCES" (Abs (segments prefix))), m')
    end.

Definition chdir (p : path) : M E unit :=
  fun m =>
    match fs_get (fs (world m)) (locate m p) with
    | Some (Dir _) =>
        (Ret tt,
         {| world := {| fs := fs (world m);
                        cwd := locate m p;
                        ext := ext (world m) |};
            events := events m |})
    | Some (File _) => (Throw (SystemError "ENOTDIR" p), m)
    | None =>
        (Throw (SystemError (fs_errno (fs (world m)) (locate m p)) p), m)
    end.

(** The place a path names at this point of the run. *)
Definition realpath (p : path) : M E location :=
  fun m => (Ret (locate m p), m).

Definition log (line : string) : M E unit :=
  fun m => (Ret tt, {| world := world m; events := events m ++ [Log line] |}).

(** *** [utils.ts] *)

(** Modelled from the spec: [utils.shell] is not part of the sources at
    hand.  The Process Runner "executes external commands, captures
    output, and raises on non-zero exit". *)
Definition shell (cmd : string) : M E string :=
  fun m =>
    let '(status, out, w) := exec host cmd (world m) in
    let m' := {| world := w; events := events m ++ [Exec cmd status] |} in
    match status with
    | O => (Ret out, m')
    | S _ => (Throw (ShellError cmd status), m')
    end.

(** Modelled from the spec: [utils.which] is not part of the sources at
    hand; it fails when the "required external tool" is missing. *)
Definition which (cmd : string) : M E unit :=
  fun m =>
    if has_program host cmd (world m) then (Ret tt, m)
    else (Throw (Error (cmd +++ " not found")), m).

(** Modelled from the spec: [utils.removeDirectory] is not part of the
    sources at hand.  It clears the content of a directory, sparing the
    excluded names ("clear every tracked file in the workspace except
    version-control metadata"), and then removes the directory itself
    unless [includeRoot] is false. *)
Definition removeDirectory (d : path) (includeRoot : bool)
    (exclude : list string) : M E unit :=
  _ <- readdirSync d ;;
  here <- realpath d ;;
  set_fs (fun t => fs_update t here (clear_dir exclude)) ;;
  if includeRoot then
    rest <- readdirSync d ;;
    match rest with
    | [] =>
        set_fs (fun t => fs_update t (removelast here)
                           (drop_entry (last here EmptyString)))
    | _ :: _ => throw (SystemError "ENOTEMPTY" d)
    end
  else ret tt.

(** *** [class GoReleaser] *)

Record GoReleaser : Type := {
  version : option string;
  dir : path;
  dryRun : bool;
  gitBranch : string;
  gitUsername : string;
  gitUseremail : string;
  _cloner : string -> path -> M E unit
}.

(** [cloneGitHub], lines 107-116 *)
Definition cloneGitHub (repository : string) (targetDir : path) : M E unit :=
  let gitHubToken := GITHUB_TOKEN env in
  if negb (Js.truthy gitHubToken) then
    throw (Error "GITHUB_TOKEN env variable is required")
  else
    _ <- shell ("git clone https://" +++ Js.interpolate gitHubToken
                +++ "@github.com/" +++ repository +++ ".git "
                +++ render targetDir) ;;
    ret tt.

(** [constructor], lines 29-52 *)
Definition constructor (d : option path) : M E GoReleaser :=
  tryCatch (which "git")
    (fun _ => throw (Error "git must be available to create this release")) ;;
  let version := VERSION env in
  let dir := Js.nullish d (Rel ["dist"; "go"]%string) in
  let gitBranch := Js.nullish (GIT_BRANCH env) "main"%string in
  let dryRun :=
    String.eqb (Js.toLowerCase (Js.nullish (DRY_RUN env) "false"%string)) "true" in
  gitUsername <- nullishM (GIT_USER_NAME env) (shell "git config user.name") ;;
  gitUseremail <- nullishM (GIT_USER_EMAIL env) (shell "git config user.email") ;;
  if String.eqb gitUseremail EmptyString then
    throw (Error "Unable to detect username. either configure a global git user.name or pass GIT_USER_NAME env variable")
  else if String.eqb gitUsername EmptyString then
    throw (Error "Unable to detect user email. either configure a global git user.email or pass GIT_USER_EMAIL env variable")
  else
    ret {| version := version;
           dir := dir;
           dryRun := dryRun;
           gitBranch := gitBranch;
           gitUsername := gitUsername;
           gitUseremail := gitUseremail;
           _cloner := cloneGitHub |}.

Variable this : GoReleaser.

(** [collectModules], lines 118-136 *)
Definition collectModules (dir : path) : M E (list path) :=
  let modules := [] in
  top <- existsSync (join dir "go.mod") ;;
  let modules := if top then modules ++ [dir] else modules in
  ps <- readdirSync dir ;;
  foldM (fun modules p =>
           let fullPath := join dir p in
           sub <- existsSync (join fullPath "go.mod") ;;
           ret (if sub then modules ++ [fullPath] else modules))
        ps modules.

(** [syncModules], lines 138-153 *)
Definition syncModules (repoDir : path) : M E unit :=
  let topLevel := join repoDir "go.mod" in
  top <- existsSync topLevel ;;
  (if top then
     removeDirectory repoDir false [".git"%string]
   else
     ps <- readdirSync repoDir ;;
     forEach ps (fun p =>
       let submodule := join (join repoDir p) "go.mod" in
       sub <- existsSync submodule ;;
       if sub then removeDirectory (join repoDir p) true [] else ret tt)) ;;
  _ <- shell ("cp -r " +++ render (dir this) +++ "/* " +++ render repoDir) ;;
  ret tt.

(** [findModuleDeclaration], lines 158-165: the second word of the first
    line that starts with [module ]. *)
Definition findModuleDeclaration (_modFile : path) : M E (option string) :=
  content <- readFileSync _modFile ;;
  match find (fun line => Js.startsWith line "module ")
             (Js.split newline content) with
  | Some line => ret (nth_error (Js.split " " line) 1)
  | None =>
      throw (Error ("No module declaration in file: " +++ render _modFile))
  end.

(** The body of the loop of [extractRepo], lines 168-172: the text
    [owner/repo] a module's declaration resolves to. *)
Definition resolveModule (module : path) : M E string :=
  let modFile := join module "go.mod" in
  decl <- findModuleDeclaration modFile ;;
  match decl with
  | None =>
      throw (TypeError "Cannot read properties of undefined (reading 'split')")
  | Some name =>
      let fullModuleName := Js.split "/" name in
      let owner := nth_error fullModuleName 1 in
      let repo := nth_error fullModuleName 2 in
      ret (Js.interpolate owner +++ "/" +++ Js.interpolate repo)
  end.

(** [extractRepo], lines 155-182 *)
Definition extractRepo (modules : list path) : M E string :=
  repos <- foldM (fun repos module =>
                    r <- resolveModule module ;;
                    ret (Js.set_add repos r))
                 modules [] ;;
  if length repos =? 0 then
    throw (Error "Unable to detect repository from module files.")
  else if 1 <? length repos then
    throw (Error "Multiple repositories found in module files")
  else ret (hd EmptyString repos).

(** [extractVersion], lines 212-224 *)
Definition extractVersion (moduleDirectory : path) : M E string :=
  let versionFile := join moduleDirectory "version" in
  if Js.truthy (version this) then
    ret (Js.interpolate (version this))
  else
    present <- existsSync versionFile ;;
    if present then readFileSync versionFile
    else
      throw (Error ("Unable to determine version of module "
                    +++ render moduleDirectory +++ ". "
                    +++ "Either include a 'version' file, or specify a global version using the VERSION environment variable.")).

(** [createReleaseMessage], lines 184-195 *)
Definition createReleaseMessage (modules : list path) : M E string :=
  let message := "chore(release):"%string in
  if Js.truthy (version this) then
    ret (message +++ " " +++ Js.interpolate (version this))
  else
    foldM (fun message module =>
             let moduleName := basename module in
             moduleVersion <- extractVersion module ;;
             ret (message +++ " " +++ moduleName +++ "@" +++ moduleVersion))
          modules message.

(** [createTag], lines 197-210 *)
Definition createTag (moduleDirectory repoDir : path) : M E string :=
  let moduleName := basename moduleDirectory in
  moduleVersion <- extractVersion moduleDirectory ;;
  let tagName :=
    if String.eqb moduleName (basename repoDir) then
      "v" +++ moduleVersion
    else
      moduleName +++ "/v" +++ moduleVersion in
  _ <- shell ("git tag -a " +++ tagName +++ " -m " +++ tagName) ;;
  ret tagName.

(** [release], lines 61-69: discovery, resolution and clone. *)
Definition release_clone : M E (list path * path) :=
  modules <- collectModules (dir this) ;;
  log "Detected modules:" ;;
  forEach modules (fun m => log (" - " +++ render m)) ;;
  repo <- extractRepo modules ;;
  tmp <- mkdtempSync (tmpdir host) ;;
  let repoDir := join tmp (basename_of_text repo) in
  _cloner this repo repoDir ;;
  chdir repoDir ;;
  ret (modules, repoDir).

(** [release], lines 71-75 *)
Definition release_checkout : M E string :=
  tryCatch (shell ("git checkout " +++ gitBranch this))
           (fun _ => shell ("git checkout -b " +++ gitBranch this)).

(** [release], lines 79-86: [true] stands for the early [return {}]. *)
Definition release_unchanged : M E bool :=
  tryCatch
    (_ <- shell "git add ." ;;
     _ <- shell "git diff-index --exit-code HEAD --" ;;
     log "No changes. Skipping release" ;;
     ret true)
    (fun _ => ret false).

(** [release], lines 88-93 *)
Definition release_commit (modules : list path) : M E unit :=
  _ <- shell ("git config user.name " +++ gitUsername this) ;;
  _ <- shell ("git config user.email " +++ gitUseremail this) ;;
  commitMessage <- nullishM (GIT_COMMIT_MESSAGE env)
                            (createReleaseMessage modules) ;;
  _ <- shell ("git commit -m " +++ String dquote commitMessage
              +++ String dquote EmptyString) ;;
  ret tt.

(** [release], lines 95-104 *)
Definition release_publish (modules : list path) (repoDir : path)
  : M E GoRelease :=
  tags <- mapM (fun m => createTag m repoDir) modules ;;
  (if dryRun this then
     log ("Will push to branch: " +++ gitBranch this) ;;
     forEach tags (fun t => log ("Will push tag: " +++ t))
   else
     _ <- shell ("git push origin " +++ gitBranch this) ;;
     forEach tags (fun t => _ <- shell ("git push origin " +++ t) ;; ret tt)) ;;
  ret {| tags := Some tags |}.

(** [release], lines 77-104: what follows the checkout. *)
Definition release_from_sync (modules : list path) (repoDir : path)
  : M E GoRelease :=
  syncModules repoDir ;;
  unchanged <- release_unchanged ;;
  if unchanged then ret {| tags := None |}
  else
    release_commit modules ;;
    release_publish modules repoDir.

(** [release], lines 59-105 *)
Definition release : M E GoRelease :=
  cloned <- release_clone ;;
  let '(modules, repoDir) := cloned in
  _ <- release_checkout ;;
  release_from_sync modules repoDir.

(** The same releaser with another value of [dryRun]. *)
Definition with_dryRun (b : bool) : GoReleaser :=
  {| version := version this;
     dir := dir this;
     dryRun := b;
     gitBranch := gitBranch this;
     gitUsername := gitUsername this;
     gitUseremail := gitUseremail this;
     _cloner := _cloner this |}.

End Code.

Arguments GoReleaser : clear implicits.


(** ** The vocabulary of the statements *)

(** Two places that part ways at some segment: neither is inside the
    other. *)
Fixpoint diverge (p q : location) : bool :=
  match p, q with
  | x :: p', y :: q' => if String.eqb x y then diverge p' q' else true
  | _, _ => false
  end.

(** A command that starts with one of the given words. *)
Definition starts (prefixes : list string) (e : event) : bool :=
  match e with
  | Exec cmd _ => existsb (fun p => String.prefix p cmd) prefixes
  | Log _ => false
  end.

Definition never (prefixes : list string) (e : event) : Prop :=
  starts prefixes e = false.

Definition tag_command (t : string) : string :=
  "git tag -a " +++ t +++ " -m " +++ t.

Definition tag_name (moduleDirectory repoDir : path) (v : string) : string :=
  if String.eqb (basename moduleDirectory) (basename repoDir)
  then "v" +++ v
  else basename moduleDirectory +++ "/v" +++ v.

Definition push_command (target : string) : string :=
  "git push origin " +++ target.

(** The events of commands that all exit with 0. *)
Definition succeeded (cmds : list string) : list event :=
  map (fun c => Exec c 0) cmds.

(** A directory entry that holds a [go.mod]. *)
Definition submodule (es : list (string * node)) (n : string) : bool :=
  match fs_get (Dir es) [n; "go.mod"%string] with
  | Some _ => true
  | None => false
  end.

(** An entry that the loop of [syncModules] over [ps] removes. *)
Definition doomed (ps : list string) (es : list (string * node)) (n : string)
  : bool :=
  andb (Js.mem n ps) (submodule es n).

(** What the clearing step of [syncModules] leaves of the workspace. *)
Definition cleared (es : list (string * node)) : list (string * node) :=
  match lookup "go.mod" es with
  | Some _ => keep_names (fun n => Js.mem n [".git"%string]) es
  | None => keep_names (fun n => negb (doomed (names es) es n)) es
  end.

Section Vocabulary.

Context {E : Type}.

(** The directory [d] holds a [go.mod]. *)
Definition has_declaration (m : Machine E) (d : path) : bool :=
  match fs_get (fs (world m)) (locate m (join d "go.mod")) with
  | Some _ => true
  | None => false
  end.

(** The machine after these lines are written. *)
Definition logged (m : Machine E) (lines : list string) : Machine E :=
  {| world := world m; events := events m ++ map Log lines |}.

(** The machine after these events, in the world [w]. *)
Definition ran (m : Machine E) (w : World E) (evs : list event) : Machine E :=
  {| world := w; events := events m ++ evs |}.

(** The machine with another file system. *)
Definition with_tree (m : Machine E) (t : node) : Machine E :=
  {| world := {| fs := t; cwd := cwd (world m); ext := ext (world m) |};
     events := events m |}.

(** What a dry run tells the operator. *)
Definition announcements (this : GoReleaser E) (created : list string)
  : list string :=
  ("Will push to branch: " +++ gitBranch this)
    :: map (fun t => "Will push tag: " +++ t) created.

End Vocabulary.

(** ** Concrete worlds

    The runs below are used to exercise the statements on explicit
    inputs. *)

Module Fixture.

Local Open Scope string_scope.
Local Open Scope list_scope.

Definition env0 : Env :=
  {| VERSION := None;
     GIT_BRANCH := None;
     DRY_RUN := None;
     GIT_USER_NAME := Some "bot";
     GIT_USER_EMAIL := Some "bot@example.com";
     GIT_COMMIT_MESSAGE := None;
     GITHUB_TOKEN := Some "tok" |}.

(** Both identity variables are set, and both are empty. *)
Definition env_anonymous : Env :=
  {| VERSION := None;
     GIT_BRANCH := None;
     DRY_RUN := None;
     GIT_USER_NAME := Some EmptyString;
     GIT_USER_EMAIL := Some EmptyString;
     GIT_COMMIT_MESSAGE := None;
     GITHUB_TOKEN := Some "tok" |}.

Definition env_no_name : Env :=
  {| VERSION := None;
     GIT_BRANCH := None;
     DRY_RUN := None;
     GIT_USER_NAME := Some EmptyString;
     GIT_USER_EMAIL := Some "bot@example.com";
     GIT_COMMIT_MESSAGE := None;
     GITHUB_TOKEN := Some "tok" |}.

Definition env_no_email : Env :=
  {| VERSION := None;
     GIT_BRANCH := None;
     DRY_RUN := None;
     GIT_USER_NAME := Some "bot";
     GIT_USER_EMAIL := Some EmptyString;
     GIT_COMMIT_MESSAGE := None;
     GITHUB_TOKEN := Some "tok" |}.

Definition go_mod (name : string) : node :=
  File ("module " +++ name +++ String newline "go 1.15").

(** A staging directory that is one root module. *)
Definition staging_root : node :=
  Dir [("go.mod", go_mod "github.com/acme/widgets");
       ("version", File "1.2.3");
       ("widgets.go", File "package widgets")].

(** A staging directory with two submodules of one repository. *)
Definition staging_subs : node :=
  Dir [("alpha", Dir [("go.mod", go_mod "github.com/acme/widgets/alpha");
                      ("version", File "0.1.0")]);
       ("beta", Dir [("go.mod", go_mod "github.com/acme/widgets/beta");
                     ("version", File "0.2.0")]);
       ("README.md", File "staged")].

(** A staging directory whose modules name two repositories. *)
Definition staging_mixed : node :=
  Dir [("alpha", Dir [("go.mod", go_mod "github.com/acme/widgets/alpha");
                      ("version", File "0.1.0")]);
       ("gamma", Dir [("go.mod", go_mod "github.com/acme/gadgets/gamma");
                      ("version", File "0.3.0")])].

(** The staging directory is given by an absolute path: [release] changes
    the working directory before it copies and before it reads versions. *)
Definition staging_dir : path := Abs ["work"; "dist"; "go"].

Definition disk (staging : node) : node :=
  Dir [("work", Dir [("dist", Dir [("go", staging)])])].

Definition entries (t : node) : list (string * node) :=
  match t with
  | Dir es => es
  | File _ => []
  end.

Definition git_entry : string * node :=
  (".git", Dir [("HEAD", File "ref: refs/heads/main")]).

(** The clone of a repository that has no module at its root. *)
Definition clone_flat : node :=
  Dir [git_entry; ("old.txt", File "old")].

(** The clone of a repository that has a module at its root. *)
Definition clone_rooted : node :=
  Dir [git_entry;
       ("go.mod", go_mod "github.com/acme/widgets");
       ("keep.txt", File "kept");
       ("alpha", Dir [("go.mod", go_mod "github.com/acme/widgets/alpha");
                      ("stale.go", File "stale")])].

Definition add_entry (name : string) (c : node) (t : node) : node :=
  match t with
  | Dir es => Dir (es ++ [(name, c)])
  | File _ => t
  end.

Definition with_fs (t : node) (w : World unit) : World unit :=
  {| fs := t; cwd := cwd w; ext := ext w |}.

(** Where [git clone] puts the repository. *)
Definition workspace : path := Abs ["tmpAb12Cd"; "widgets"].

(** What [cp -r SRC/* DST] does on the hosts of the runs, for two
    directories named by plain words.  The shell expands [SRC/*] to the
    entries of [SRC] whose name does not start with a dot, and hands the
    pattern itself to [cp] when there is none, which then fails.  [cp -r]
    copies each entry into [DST]: a new name is copied whole, a directory
    is merged into an existing directory, a file replaces an existing file,
    and a file over a directory (or a directory over a file) is reported,
    skipped, and makes the exit status non-zero. *)

Definition hidden (n : string) : bool := Js.startsWith n ".".

Definition glob_star (es : list (string * node)) : list (string * node) :=
  keep_names (fun n => negb (hidden n)) es.

Fixpoint merge (src dst : node) {struct src} : node * bool :=
  match src, dst with
  | File c, File _ => (File c, true)
  | File _, Dir _ => (dst, false)
  | Dir _, File _ => (dst, false)
  | Dir ses, Dir des =>
      let fix go (ses : list (string * node)) (des : list (string * node))
          {struct ses} : list (string * node) * bool :=
        match ses with
        | [] => (des, true)
        | (n, s) :: r =>
            match lookup n des with
            | None => go r (des ++ [(n, s)])
            | Some d =>
                let '(d', ok) := merge s d in
                let '(des', ok') := go r (replace_entry n (fun _ => d') des) in
                (des', andb ok ok')
            end
        end in
      let '(es, ok) := go ses des in (Dir es, ok)
  end.

Fixpoint copy_entries (srcs : list (string * node)) (des : list (string * node))
  : list (string * node) * bool :=
  match srcs with
  | [] => (des, true)
  | (n, s) :: r =>
      match lookup n des with
      | None => copy_entries r (des ++ [(n, s)])
      | Some d =>
          let '(d', ok) := merge s d in
          let '(des', ok') := copy_entries r (replace_entry n (fun _ => d') des) in
          (des', andb ok ok')
      end
  end.

Definition cp_command (src dst : path) : string :=
  "cp -r " +++ render src +++ "/* " +++ render dst.

Definition cp_r (src dst : path) (w : World unit) : nat * string * World unit :=
  let t := fs w in
  let to := resolve (cwd w) dst in
  match fs_get t (resolve (cwd w) src), fs_get t to with
  | Some (Dir ses), Some (Dir des) =>
      match glob_star ses with
      | [] => (1, EmptyString, w)
      | srcs =>
          let '(des', ok) := copy_entries srcs des in
          ((if ok then 0 else 1), EmptyString,
           with_fs (fs_update t to (fun _ => Dir des')) w)
      end
  | _, _ => (1, EmptyString, w)
  end.

(** A host on which [git clone] produces [clone] in the temporary
    directory, [git checkout BRANCH] exits with [checkout], the index
    differs from [HEAD] exactly when [changed], [git push] exits with
    [push], the copy of the staging directory ([/work/dist/go], or
    [dist/go] from the working directory) into the workspace is done as
    [cp_r] says, and every other command succeeds. *)
Definition host_with (clone : node) (checkout : nat) (changed : bool)
    (push : string -> nat) : Host unit :=
  {| exec := fun cmd w =>
       if String.prefix "git clone " cmd then
         (0, EmptyString,
          with_fs (add_entry "tmpAb12Cd" (Dir [("widgets", clone)]) (fs w)) w)
       else if String.prefix "git checkout -b " cmd then (0, EmptyString, w)
       else if String.prefix "git checkout " cmd then (checkout, EmptyString, w)
       else if String.prefix "git diff-index " cmd then
         ((if changed then 1 else 0), EmptyString, w)
       else if String.prefix "git push " cmd then (push cmd, EmptyString, w)
       else if String.eqb cmd (cp_command staging_dir workspace) then
         cp_r staging_dir workspace w
       else if String.eqb cmd (cp_command (Rel ["dist"; "go"]) workspace) then
         cp_r (Rel ["dist"; "go"]) workspace w
       else (0, EmptyString, w);
     has_program := fun _ _ => true;
     tmpdir := "/tmp";
     mkdtemp := fun _ w => (Some ["tmpAb12Cd"], w) |}.

Definition host0 : Host unit := host_with clone_flat 0 true (fun _ => 0).

Definition boot (t : node) : Machine unit :=
  {| world := {| fs := t; cwd := ["work"]; ext := tt |}; events := [] |}.

(** [new GoReleaser('/work/dist/go').release()] *)
Definition run (h : Host unit) (e : Env) (t : node)
  : outcome GoRelease * Machine unit :=
  match constructor h e (Some staging_dir) (boot t) with
  | (Ret this, m) => release h e this m
  | (Throw x, m) => (Throw x, m)
  end.

Definition releaser (h : Host unit) (e : Env) (dry : bool)
    (v : option string) : GoReleaser unit :=
  {| version := v;
     dir := staging_dir;
     dryRun := dry;
     gitBranch := "main";
     gitUsername := "bot";
     gitUseremail := "bot@example.com";
     _cloner := cloneGitHub h e |}.

(** Nothing differs from [HEAD] after the synchronisation. *)
Definition host_idle : Host unit := host_with clone_flat 0 false (fun _ => 0).

(** [git checkout main] exits with 1: git knows no such branch. *)
Definition host_new_branch : Host unit :=
  host_with clone_flat 1 true (fun _ => 0).

(** [git checkout main] exits with 128, the status of a fatal error. *)
Definition host_fatal_checkout : Host unit :=
  host_with clone_flat 128 true (fun _ => 0).

(** The second push, the one of the first tag, is rejected. *)
Definition host_rejecting : Host unit :=
  host_with clone_flat 0 true
    (fun cmd => if String.eqb cmd "git push origin alpha/v0.1.0" then 1 else 0).

(** The disk once the repository is cloned. *)
Definition mirrored (staging clone : node) : node :=
  Dir [("work", Dir [("dist", Dir [("go", staging)])]);
       ("tmpAb12Cd", Dir [("widgets", clone)])].

End Fixture.

(** * Properties *)

Local Open Scope go_scope.

(** ** Strings and lists *)

Lemma eqb_empty_false (s : string) :
  s <> EmptyString -> String.eqb s EmptyString = false.
Proof. intros H. apply String.eqb_neq. exact H. Qed.

Lemma truthy_some (v : string) :
  v <> EmptyString -> Js.truthy (Some v) = true.
Proof. intros H. simpl. rewrite eqb_empty_false by exact H. reflexivity. Qed.

Lemma join_inj (d : path) (p q : string) : join d p = join d q -> p = q.
Proof.
  destruct d as [l|l]; simpl; intros H; inversion H as [H1];
    apply app_inj_tail in H1; destruct H1 as [_ H1]; exact H1.
Qed.

Lemma join_neq (d : path) (p : string) : join d p <> d.
Proof.
  destruct d as [l|l]; simpl; intros H; inversion H as [H1];
    apply (f_equal (@length string)) in H1;
    rewrite length_app in H1; simpl in H1; lia.
Qed.

Lemma resolve_join (c : location) (d : path) (n : string) :
  resolve c (join d n) = resolve c d ++ [n].
Proof.
  destruct d as [l|l]; simpl; [reflexivity|apply app_assoc].
Qed.

Lemma locate_join {E : Type} (m : Machine E) (d : path) (n : string) :
  locate m (join d n) = locate m d ++ [n].
Proof. apply resolve_join. Qed.

Lemma NoDup_map_join (d : path) (ps : list string) :
  NoDup ps -> NoDup (map (join d) ps).
Proof.
  induction 1 as [|p ps Hp Hnd IH]; simpl; constructor; [|exact IH].
  intros H. apply in_map_iff in H. destruct H as [q [Hq H]].
  apply join_inj in Hq. subst q. exact (Hp H).
Qed.

(** ** The file system *)

Lemma fs_get_app (t : node) (a b : location) :
  fs_get t (a ++ b)
  = match fs_get t a with
    | Some n => fs_get n b
    | None => None
    end.
Proof.
  revert t. induction a as [|x a IH]; intros t; simpl.
  - reflexivity.
  - destruct t as [c|es]; [reflexivity|].
    destruct (lookup x es) as [n|]; [apply IH|reflexivity].
Qed.

Lemma lookup_names (x : string) (es : list (string * node)) (c : node) :
  lookup x es = Some c -> In x (names es).
Proof.
  induction es as [|[y d] es IH]; simpl; [discriminate|].
  destruct (String.eqb x y) eqn:Hxy.
  - apply String.eqb_eq in Hxy. intros _. left. symmetry. exact Hxy.
  - intros H. right. apply IH. exact H.
Qed.

Lemma lookup_none_names (x : string) (es : list (string * node)) :
  lookup x es = None <-> ~ In x (names es).
Proof.
  induction es as [|[y d] es IH]; simpl.
  - split; [intros _ []|reflexivity].
  - destruct (String.eqb x y) eqn:Hxy.
    + apply String.eqb_eq in Hxy. subst y. split; [discriminate|].
      intros H. exfalso. apply H. left. reflexivity.
    + apply String.eqb_neq in Hxy. rewrite IH. split.
      * intros H [H1|H1]; [apply Hxy; symmetry; exact H1|exact (H H1)].
      * intros H H1. apply H. right. exact H1.
Qed.

(** ** Sets of strings *)

Lemma mem_In (x : string) (s : list string) : Js.mem x s = true <-> In x s.
Proof.
  unfold Js.mem. rewrite existsb_exists. split.
  - intros [y [Hy H]]. apply String.eqb_eq in H. subst y. exact Hy.
  - intros H. exists x. split; [exact H|apply String.eqb_refl].
Qed.

Lemma set_add_In (s : list string) (x y : string) :
  In y (Js.set_add s x) <-> In y s \/ y = x.
Proof.
  unfold Js.set_add. destruct (Js.mem x s) eqn:Hm.
  - apply mem_In in Hm. split; [intros H; left; exact H|].
    intros [H| ->]; assumption.
  - rewrite in_app_iff. simpl. split.
    + intros [H|[H|[]]]; [left; exact H|right; symmetry; exact H].
    + intros [H|H]; [left; exact H|right; left; symmetry; exact H].
Qed.

Lemma fold_set_add_In (rs s : list string) (y : string) :
  In y (fold_left Js.set_add rs s) <-> In y s \/ In y rs.
Proof.
  revert s. induction rs as [|r rs IH]; intros s; simpl.
  - split; [intros H; left; exact H|intros [H|[]]; exact H].
  - rewrite IH, set_add_In. split.
    + intros [[H|H]|H]; [left; exact H|right; left; symmetry; exact H|right; right; exact H].
    + intros [H|[H|H]]; [left; left; exact H|left; right; symmetry; exact H|right; exact H].
Qed.

Lemma two_members (l : list string) (a b : string) :
  In a l -> In b l -> a <> b -> 2 <= length l.
Proof.
  destruct l as [|x [|y l]]; simpl.
  - intros [].
  - intros [Ha|[]] [Hb|[]] Hab. exfalso. apply Hab. congruence.
  - intros _ _ _. lia.
Qed.

Section Properties.

Context {E : Type}.
Variable host : Host E.
Variable env : Env.

(** ** The constructor *)

(** C10 (as amended).  Once git is found and both identity values are
    resolved: an empty e-mail address raises the diagnostic that talks
    about the user name, and an empty user name, when the e-mail address
    is not empty as well, raises the diagnostic that talks about the
    e-mail address. *)
Theorem constructor_identity_diagnostics :
  forall (d : option path) (m m1 m2 : Machine E) (name email : string),
    has_program host "git" (world m) = true ->
    nullishM (GIT_USER_NAME env) (shell host "git config user.name") m
      = (Ret name, m1) ->
    nullishM (GIT_USER_EMAIL env) (shell host "git config user.email") m1
      = (Ret email, m2) ->
    (email = EmptyString ->
     constructor host env d m
     = (Throw (Error "Unable to detect username. either configure a global git user.name or pass GIT_USER_NAME env variable"),
        m2))
    /\ (name = EmptyString -> email <> EmptyString ->
        constructor host env d m
        = (Throw (Error "Unable to detect user email. either configure a global git user.email or pass GIT_USER_EMAIL env variable"),
           m2)).
Proof.
  intros d m m1 m2 name email Hgit Hname Hemail.
  unfold constructor, bind, tryCatch, which.
  rewrite Hgit, Hname, Hemail.
  split.
  - intros ->. reflexivity.
  - intros -> Hne. rewrite (eqb_empty_false email Hne). reflexivity.
Qed.

(** ** Version resolution *)

(** C3.  A (non-empty) global override wins whatever the module
    directory holds; without one the content of the module's [version]
    file is returned as it is; with neither the error raised carries the
    text of the module directory.  The machine is left as it was. *)
Theorem extractVersion_priority :
  forall (this : GoReleaser E) (moduleDirectory : path) (m : Machine E),
    (forall v, version this = Some v -> v <> EmptyString ->
               extractVersion this moduleDirectory m = (Ret v, m))
    /\ (forall c, Js.truthy (version this) = false ->
                  fs_get (fs (world m)) (locate m (join moduleDirectory "version"))
                  = Some (File c) ->
                  extractVersion this moduleDirectory m = (Ret c, m))
    /\ (Js.truthy (version this) = false ->
        fs_get (fs (world m)) (locate m (join moduleDirectory "version")) = None ->
        extractVersion this moduleDirectory m
        = (Throw (Error ("Unable to determine version of module "
                         +++ render moduleDirectory +++ ". "
                         +++ "Either include a 'version' file, or specify a global version using the VERSION environment variable.")),
           m)).
Proof.
  intros this moduleDirectory m. unfold extractVersion. repeat split.
  - intros v Hv Hne. rewrite Hv, (truthy_some v Hne). reflexivity.
  - intros c Ht Hf. rewrite Ht.
    unfold bind, existsSync, readFileSync.
    rewrite Hf. cbv beta iota. rewrite Hf. reflexivity.
  - intros Ht Hf. rewrite Ht.
    unfold bind, existsSync, throw. rewrite Hf. reflexivity.
Qed.

(** ** Module discovery *)

Lemma collect_loop (dir : path) (m : Machine E) :
  forall (ps : list string) (init : list path),
    foldM (fun modules p =>
             let fullPath := join dir p in
             sub <- existsSync (join fullPath "go.mod") ;;
             ret (if sub then modules ++ [fullPath] else modules))
          ps init m
    = (Ret (init ++ map (join dir)
              (filter (fun p => has_declaration m (join dir p)) ps)),
       m).
Proof.
  induction ps as [|p ps IH]; intros init.
  - simpl. unfold ret. rewrite app_nil_r. reflexivity.
  - cbn [foldM]. unfold bind at 1. unfold bind at 1.
    unfold existsSync at 1. unfold ret at 1. cbv beta iota.
    rewrite IH. cbn [filter]. unfold has_declaration at 2.
    destruct (fs_get (fs (world m)) (locate m (join (join dir p) "go.mod"))).
    + cbn [map]. rewrite <- app_assoc. reflexivity.
    + reflexivity.
Qed.

Lemma collectModules_run (dir : path) (m : Machine E)
    (es : list (string * node)) :
  fs_get (fs (world m)) (locate m dir) = Some (Dir es) ->
  collectModules dir m
  = (Ret ((if has_declaration m dir then [dir] else [])
          ++ map (join dir)
               (filter (fun p => has_declaration m (join dir p))
                  (names es))),
     m).
Proof.
  intros Hdir. unfold collectModules.
  unfold bind at 1. unfold existsSync at 1. cbv beta iota.
  unfold bind at 1. unfold readdirSync. rewrite Hdir.
  rewrite collect_loop. unfold has_declaration.
  destruct (fs_get (fs (world m)) (locate m (join dir "go.mod"))); reflexivity.
Qed.

Lemma declaration_in_listing (m : Machine E) (dir : path)
    (es : list (string * node)) (p : string) :
  fs_get (fs (world m)) (locate m dir) = Some (Dir es) ->
  has_declaration m (join dir p) = true ->
  In p (names es).
Proof.
  intros Hdir. unfold has_declaration.
  rewrite !locate_join, <- app_assoc, fs_get_app, Hdir. simpl.
  destruct (lookup p es) as [c|] eqn:Hp; [|discriminate].
  intros _. exact (lookup_names p es c Hp).
Qed.

(** C6.  On a staging directory (whose listing has no repeated name)
    discovery returns, without touching the machine: the directory itself
    exactly when it holds a [go.mod]; a child exactly when that child
    holds a [go.mod]; no path twice; and nothing but the directory and
    its immediate children. *)
Theorem collectModules_spec :
  forall (dir : path) (m : Machine E) (es : list (string * node)),
    fs_get (fs (world m)) (locate m dir) = Some (Dir es) ->
    NoDup (names es) ->
    exists modules : list path,
      collectModules dir m = (Ret modules, m)
      /\ (In dir modules
          <-> fs_get (fs (world m)) (locate m (join dir "go.mod")) <> None)
      /\ (forall p : string,
             In (join dir p) modules
             <-> fs_get (fs (world m)) (locate m (join (join dir p) "go.mod"))
                 <> None)
      /\ NoDup modules
      /\ (forall x : path,
             In x modules ->
             x = dir \/ exists p, In p (names es) /\ x = join dir p).
Proof.
  intros dir m es Hdir Hnd.
  eexists. split; [apply (collectModules_run dir m es Hdir)|].
  set (subs := filter (fun p => has_declaration m (join dir p)) (names es)).
  assert (Hroot : ~ In dir (map (join dir) subs)).
  { intros H. apply in_map_iff in H. destruct H as [p [H _]].
    exact (join_neq dir p H). }
  assert (Hhas : forall d, has_declaration m d = true
                           <-> fs_get (fs (world m)) (locate m (join d "go.mod"))
                               <> None).
  { intros d. unfold has_declaration.
    destruct (fs_get (fs (world m)) (locate m (join d "go.mod"))); split; intros H;
      try discriminate; try reflexivity. exfalso. apply H. reflexivity. }
  repeat split.
  - intros H. apply in_app_or in H. destruct H as [H|H]; [|contradiction].
    apply Hhas. destruct (has_declaration m dir); [reflexivity|destruct H].
  - intros H. apply Hhas in H. rewrite H. left. reflexivity.
  - intros H. apply in_app_or in H. destruct H as [H|H].
    + destruct (has_declaration m dir); [|destruct H].
      destruct H as [H|[]]. exfalso. exact (join_neq dir p (eq_sym H)).
    + apply in_map_iff in H. destruct H as [q [Hq H]].
      apply join_inj in Hq. subst q. apply filter_In in H.
      apply Hhas. exact (proj2 H).
  - intros H. apply Hhas in H. apply in_or_app. right.
    apply in_map. apply filter_In. split; [|exact H].
    exact (declaration_in_listing m dir es p Hdir H).
  - assert (Hsubs : NoDup (map (join dir) subs)).
    { apply NoDup_map_join. apply NoDup_filter. exact Hnd. }
    destruct (has_declaration m dir); [|exact Hsubs].
    simpl. constructor; assumption.
  - intros x H. apply in_app_or in H. destruct H as [H|H].
    + destruct (has_declaration m dir); [|destruct H].
      destruct H as [H|[]]. left. symmetry. exact H.
    + apply in_map_iff in H. destruct H as [p [Hp H]].
      right. exists p. apply filter_In in H. split; [exact (proj1 H)|].
      symmetry. exact Hp.
Qed.

(** ** Code that only reads the file system *)

(** Code whose result depends on the file system and the working directory
    only, and that leaves the machine as it is. *)
Definition reads {A : Type} (c : M E A) : Prop :=
  forall m1 m2 : Machine E,
    fs (world m1) = fs (world m2) ->
    cwd (world m1) = cwd (world m2) ->
    c m1 = (fst (c m2), m1).

Lemma reads_run {A : Type} (c : M E A) (m1 m2 : Machine E) (o : outcome A) :
  reads c ->
  fs (world m1) = fs (world m2) ->
  cwd (world m1) = cwd (world m2) ->
  c m2 = (o, m2) -> c m1 = (o, m1).
Proof. intros Hc Hfs Hcwd H. rewrite (Hc m1 m2 Hfs Hcwd), H. reflexivity. Qed.

Lemma reads_ret {A : Type} (a : A) : reads (ret a).
Proof. intros m1 m2 _ _. reflexivity. Qed.

Lemma reads_throw {A : Type} (e : exn) : reads (@throw E A e).
Proof. intros m1 m2 _ _. reflexivity. Qed.

Lemma reads_bind {A B : Type} (c : M E A) (k : A -> M E B) :
  reads c -> (forall a, reads (k a)) -> reads (bind c k).
Proof.
  intros Hc Hk m1 m2 Hfs Hcwd. unfold bind.
  rewrite (Hc m1 m2 Hfs Hcwd), (Hc m2 m2 eq_refl eq_refl).
  destruct (fst (c m2)) as [a|e]; [|reflexivity].
  apply (Hk a m1 m2 Hfs Hcwd).
Qed.

Lemma reads_existsSync (p : path) : reads (existsSync p).
Proof.
  intros m1 m2 Hfs Hcwd. unfold existsSync, locate. rewrite Hfs, Hcwd.
  reflexivity.
Qed.

Lemma reads_readdirSync (p : path) : reads (readdirSync p).
Proof.
  intros m1 m2 Hfs Hcwd. unfold readdirSync, locate. rewrite Hfs, Hcwd.
  destruct (fs_get (fs (world m2)) (resolve (cwd (world m2)) p)) as [[c|es]|];
    reflexivity.
Qed.

Lemma reads_readFileSync (p : path) : reads (readFileSync p).
Proof.
  intros m1 m2 Hfs Hcwd. unfold readFileSync, locate. rewrite Hfs, Hcwd.
  destruct (fs_get (fs (world m2)) (resolve (cwd (world m2)) p)) as [[c|es]|];
    reflexivity.
Qed.

Lemma reads_foldM {A B : Type} (f : B -> A -> M E B) (l : list A) :
  (forall b a, reads (f b a)) -> forall b, reads (foldM f l b).
Proof.
  intros Hf. induction l as [|x l IH]; intros b; simpl.
  - apply reads_ret.
  - apply reads_bind; [apply Hf|exact IH].
Qed.

Lemma reads_findModuleDeclaration (p : path) : reads (findModuleDeclaration p).
Proof.
  unfold findModuleDeclaration. apply reads_bind; [apply reads_readFileSync|].
  intros content. destruct (find _ _); [apply reads_ret|apply reads_throw].
Qed.

Lemma reads_resolveModule (md : path) : reads (resolveModule md).
Proof.
  unfold resolveModule. apply reads_bind; [apply reads_findModuleDeclaration|].
  intros [name|]; [apply reads_ret|apply reads_throw].
Qed.

Lemma reads_extractVersion (this : GoReleaser E) (md : path) :
  reads (extractVersion this md).
Proof.
  unfold extractVersion. destruct (Js.truthy (version this)); [apply reads_ret|].
  apply reads_bind; [apply reads_existsSync|].
  intros [|]; [apply reads_readFileSync|apply reads_throw].
Qed.

(** ** Logging *)

Lemma forEach_log {A : Type} (f : A -> string) (l : list A) (m : Machine E) :
  forEach l (fun x => log (f x)) m = (Ret tt, logged m (map f l)).
Proof.
  revert m. induction l as [|x l IH]; intros m; simpl.
  - unfold ret, logged. simpl. rewrite app_nil_r. destruct m; reflexivity.
  - unfold bind at 1. unfold log at 1. rewrite IH. unfold logged. simpl.
    rewrite <- app_assoc. reflexivity.
Qed.

(** ** Repository resolution *)

Lemma resolve_loop (m : Machine E) :
  forall (modules : list path) (repos : list string),
    (forall md, In md modules -> exists r, resolveModule md m = (Ret r, m)) ->
    exists rs : list string,
      Forall2 (fun md r => resolveModule md m = (Ret r, m)) modules rs
      /\ foldM (fun repos module =>
                  r <- resolveModule module ;;
                  ret (Js.set_add repos r))
               modules repos m
         = (Ret (fold_left Js.set_add rs repos), m).
Proof.
  induction modules as [|md modules IH]; intros repos Hall.
  - exists []. split; [constructor|reflexivity].
  - destruct (Hall md (or_introl eq_refl)) as [r Hr].
    destruct (IH (Js.set_add repos r)) as [rs [Hrs Hrun]].
    { intros md' Hin. apply Hall. right. exact Hin. }
    exists (r :: rs). split; [constructor; assumption|].
    cbn [foldM]. unfold bind at 1. unfold bind at 1. rewrite Hr.
    unfold ret at 1. exact Hrun.
Qed.

Lemma extractRepo_multiple (m : Machine E) (modules : list path)
    (a b : path) (ra rb : string) :
  (forall md, In md modules -> exists r, resolveModule md m = (Ret r, m)) ->
  In a modules -> In b modules ->
  resolveModule a m = (Ret ra, m) ->
  resolveModule b m = (Ret rb, m) ->
  ra <> rb ->
  extractRepo modules m
  = (Throw (Error "Multiple repositories found in module files"), m).
Proof.
  intros Hall Ha Hb Hra Hrb Hne.
  destruct (resolve_loop m modules [] Hall) as [rs [Hrs Hrun]].
  unfold extractRepo. unfold bind at 1. rewrite Hrun.
  assert (Hin : forall md r, In md modules ->
                             resolveModule md m = (Ret r, m) -> In r rs).
  { clear Hrun Hall Ha Hb. induction Hrs as [|md' r' mds rs' Hhd Htl IH].
    - intros md r [].
    - intros md r [Hmd|Hmd] Hr.
      + subst md'. rewrite Hhd in Hr. left. congruence.
      + right. exact (IH md r Hmd Hr). }
  assert (Hlen : 2 <= length (fold_left Js.set_add rs [])).
  { apply (two_members _ ra rb); [| |exact Hne];
      apply fold_set_add_In; right; eauto. }
  destruct (length (fold_left Js.set_add rs [])) as [|[|n]]; [lia|lia|].
  reflexivity.
Qed.

(** C5.  When every discovered module resolves and two of them resolve
    to different [owner/repo] texts, the run raises the
    multiple-repositories error.  The world is the one the run started
    in and the only events are the lines that list the modules: no
    command was run, whatever the cloner of the releaser is. *)
Theorem release_multiple_repositories :
  forall (this : GoReleaser E) (m : Machine E) (modules : list path)
         (a b : path) (ra rb : string),
    collectModules (dir this) m = (Ret modules, m) ->
    (forall md, In md modules -> exists r, resolveModule md m = (Ret r, m)) ->
    In a modules -> In b modules ->
    resolveModule a m = (Ret ra, m) ->
    resolveModule b m = (Ret rb, m) ->
    ra <> rb ->
    release host env this m
    = (Throw (Error "Multiple repositories found in module files"),
       logged m ("Detected modules:"%string
                 :: map (fun md => " - " +++ render md) modules)).
Proof.
  intros this m modules a b ra rb Hmods Hall Ha Hb Hra Hrb Hne.
  set (m' := logged m ("Detected modules:"%string
                       :: map (fun md => " - " +++ render md) modules)).
  assert (Hfs : fs (world m') = fs (world m)) by reflexivity.
  assert (Hcwd : cwd (world m') = cwd (world m)) by reflexivity.
  assert (Hrepo : extractRepo modules m'
                  = (Throw (Error "Multiple repositories found in module files"), m')).
  { apply (extractRepo_multiple m' modules a b ra rb); try assumption.
    - intros md Hmd. destruct (Hall md Hmd) as [r Hr]. exists r.
      exact (reads_run _ m' m _ (reads_resolveModule md) Hfs Hcwd Hr).
    - exact (reads_run _ m' m _ (reads_resolveModule a) Hfs Hcwd Hra).
    - exact (reads_run _ m' m _ (reads_resolveModule b) Hfs Hcwd Hrb). }
  unfold release. unfold bind at 1. unfold release_clone.
  unfold bind at 1. rewrite Hmods.
  unfold bind at 1. unfold log at 1.
  unfold bind at 1. rewrite forEach_log.
  unfold bind at 1.
  match goal with
  | |- context [extractRepo modules ?x] => replace x with m'
  end.
  - rewrite Hrepo. reflexivity.
  - unfold m', logged. simpl. rewrite <- app_assoc. reflexivity.
Qed.

(** ** What a piece of code can add to the event list *)

(** Code that only adds events of the kind [P]. *)
Definition emits {A : Type} (P : event -> Prop) (c : M E A) : Prop :=
  forall m : Machine E,
    exists evs : list event,
      events (snd (c m)) = events m ++ evs /\ Forall P evs.

Section Emits.

Variable P : event -> Prop.

Lemma emits_silent {A : Type} (c : M E A) :
  (forall m, events (snd (c m)) = events m) -> emits P c.
Proof.
  intros H m. exists []. rewrite app_nil_r. split; [apply H|constructor].
Qed.

Lemma emits_reads {A : Type} (c : M E A) : reads c -> emits P c.
Proof.
  intros H. apply emits_silent. intros m.
  rewrite (H m m eq_refl eq_refl). reflexivity.
Qed.

Lemma emits_ret {A : Type} (a : A) : emits P (@ret E A a).
Proof. apply emits_silent. reflexivity. Qed.

Lemma emits_throw {A : Type} (e : exn) : emits P (@throw E A e).
Proof. apply emits_silent. reflexivity. Qed.

Lemma emits_bind {A B : Type} (c : M E A) (k : A -> M E B) :
  emits P c -> (forall a, emits P (k a)) -> emits P (bind c k).
Proof.
  intros Hc Hk m. unfold bind. destruct (Hc m) as [e1 [H1 F1]].
  destruct (c m) as [[a|x] m']; simpl in H1.
  - destruct (Hk a m') as [e2 [H2 F2]]. exists (e1 ++ e2).
    rewrite H2, H1, app_assoc. split; [reflexivity|].
    apply Forall_app. split; assumption.
  - exists e1. split; assumption.
Qed.

Lemma emits_tryCatch {A : Type} (c : M E A) (h : exn -> M E A) :
  emits P c -> (forall x, emits P (h x)) -> emits P (tryCatch c h).
Proof.
  intros Hc Hh m. unfold tryCatch. destruct (Hc m) as [e1 [H1 F1]].
  destruct (c m) as [[a|x] m']; simpl in H1.
  - exists e1. split; assumption.
  - destruct (Hh x m') as [e2 [H2 F2]]. exists (e1 ++ e2).
    rewrite H2, H1, app_assoc. split; [reflexivity|].
    apply Forall_app. split; assumption.
Qed.

Lemma emits_forEach {A : Type} (l : list A) (f : A -> M E unit) :
  (forall a, emits P (f a)) -> emits P (forEach l f).
Proof.
  intros Hf. induction l as [|x l IH]; simpl.
  - apply emits_ret.
  - apply emits_bind; [apply Hf|intros _; exact IH].
Qed.

Lemma emits_mapM {A B : Type} (f : A -> M E B) (l : list A) :
  (forall a, emits P (f a)) -> emits P (mapM f l).
Proof.
  intros Hf. induction l as [|x l IH]; simpl.
  - apply emits_ret.
  - apply emits_bind; [apply Hf|]. intros y.
    apply emits_bind; [exact IH|]. intros ys. apply emits_ret.
Qed.

Lemma emits_foldM {A B : Type} (f : B -> A -> M E B) (l : list A) :
  (forall b a, emits P (f b a)) -> forall b, emits P (foldM f l b).
Proof.
  intros Hf. induction l as [|x l IH]; intros b; simpl.
  - apply emits_ret.
  - apply emits_bind; [apply Hf|exact IH].
Qed.

Lemma emits_nullishM {A : Type} (o : option A) (c : M E A) :
  emits P c -> emits P (nullishM o c).
Proof. intros H. destruct o; [apply emits_ret|exact H]. Qed.

Lemma emits_log (line : string) : P (Log line) -> emits P (@log E line).
Proof.
  intros H m. exists [Log line]. split; [reflexivity|].
  constructor; [exact H|constructor].
Qed.

Lemma emits_shell (cmd : string) :
  (forall st, P (Exec cmd st)) -> emits P (shell host cmd).
Proof.
  intros H m. unfold shell.
  destruct (exec host cmd (world m)) as [[st out] w].
  exists [Exec cmd st]. split.
  - destruct st; reflexivity.
  - constructor; [apply H|constructor].
Qed.

Lemma emits_set_fs (f : node -> node) : emits P (@set_fs E f).
Proof. apply emits_silent. reflexivity. Qed.

Lemma emits_chdir (p : path) : emits P (@chdir E p).
Proof.
  apply emits_silent. intros m. unfold chdir.
  destruct (fs_get (fs (world m)) (locate m p)) as [[c|es]|]; reflexivity.
Qed.

Lemma emits_mkdtempSync (prefix : string) : emits P (mkdtempSync host prefix).
Proof.
  apply emits_silent. intros m. unfold mkdtempSync.
  destruct (mkdtemp host prefix (world m)) as [[p|] w]; reflexivity.
Qed.

Lemma emits_removeDirectory (d : path) (includeRoot : bool)
    (exclude : list string) :
  emits P (@removeDirectory E d includeRoot exclude).
Proof.
  unfold removeDirectory.
  apply emits_bind; [apply emits_reads, reads_readdirSync|]. intros _.
  apply emits_bind; [apply emits_silent; reflexivity|]. intros here.
  apply emits_bind; [apply emits_set_fs|]. intros _.
  destruct includeRoot; [|apply emits_ret].
  apply emits_bind; [apply emits_reads, reads_readdirSync|].
  intros [|x rest]; [apply emits_set_fs|apply emits_throw].
Qed.

Lemma emits_extractVersion (this : GoReleaser E) (md : path) :
  emits P (extractVersion this md).
Proof. apply emits_reads, reads_extractVersion. Qed.

End Emits.

Lemma reads_collectModules (d : path) : reads (@collectModules E d).
Proof.
  unfold collectModules. apply reads_bind; [apply reads_existsSync|].
  intros top. apply reads_bind; [apply reads_readdirSync|]. intros ps.
  apply reads_foldM. intros mods p.
  apply reads_bind; [apply reads_existsSync|]. intros sub. apply reads_ret.
Qed.

Lemma reads_extractRepo (modules : list path) : reads (@extractRepo E modules).
Proof.
  unfold extractRepo. apply reads_bind.
  - apply reads_foldM. intros repos md.
    apply reads_bind; [apply reads_resolveModule|]. intros r. apply reads_ret.
  - intros repos. destruct (length repos =? 0); [apply reads_throw|].
    destruct (1 <? length repos); [apply reads_throw|apply reads_ret].
Qed.

Lemma reads_createReleaseMessage (this : GoReleaser E) (modules : list path) :
  reads (createReleaseMessage this modules).
Proof.
  unfold createReleaseMessage.
  destruct (Js.truthy (version this)); [apply reads_ret|].
  apply reads_foldM. intros msg md.
  apply reads_bind; [apply reads_extractVersion|]. intros v. apply reads_ret.
Qed.

(** ** The commands of each stage of [release] *)

Section Stages.

Variable P : event -> Prop.
Variable this : GoReleaser E.

Hypothesis P_log : forall line, P (Log line).
Hypothesis P_clone : forall x st, P (Exec ("git clone " +++ x) st).
Hypothesis P_checkout : forall x st, P (Exec ("git checkout " +++ x) st).
Hypothesis P_cp : forall x st, P (Exec ("cp -r " +++ x) st).
Hypothesis P_add : forall st, P (Exec "git add ." st).
Hypothesis P_diff :
  forall st, P (Exec "git diff-index --exit-code HEAD --" st).

Lemma emits_cloneGitHub (repository : string) (targetDir : path) :
  emits P (cloneGitHub host env repository targetDir).
Proof.
  unfold cloneGitHub.
  destruct (negb (Js.truthy (GITHUB_TOKEN env))); [apply emits_throw|].
  apply emits_bind; [|intros _; apply emits_ret].
  apply emits_shell. intros st. apply (P_clone _ st).
Qed.

Lemma emits_release_clone :
  _cloner this = cloneGitHub host env ->
  emits P (release_clone host this).
Proof.
  intros Hcl. unfold release_clone.
  apply emits_bind; [apply emits_reads, reads_collectModules|]. intros modules.
  apply emits_bind; [apply emits_log, P_log|]. intros _.
  apply emits_bind.
  { apply emits_forEach. intros md. apply emits_log, P_log. }
  intros _.
  apply emits_bind; [apply emits_reads, reads_extractRepo|]. intros repo.
  apply emits_bind; [apply emits_mkdtempSync|]. intros tmp.
  apply emits_bind; [rewrite Hcl; apply emits_cloneGitHub|]. intros _.
  apply emits_bind; [apply emits_chdir|]. intros _. apply emits_ret.
Qed.

Lemma emits_release_checkout : emits P (release_checkout host this).
Proof.
  unfold release_checkout. apply emits_tryCatch.
  - apply emits_shell. intros st. apply (P_checkout _ st).
  - intros _. apply emits_shell. intros st.
    apply (P_checkout ("-b " +++ gitBranch this) st).
Qed.

Lemma emits_syncModules (repoDir : path) : emits P (syncModules host this repoDir).
Proof.
  unfold syncModules.
  apply emits_bind; [apply emits_reads, reads_existsSync|]. intros top.
  apply emits_bind.
  { destruct top; [apply emits_removeDirectory|].
    apply emits_bind; [apply emits_reads, reads_readdirSync|]. intros ps.
    apply emits_forEach. intros p.
    apply emits_bind; [apply emits_reads, reads_existsSync|].
    intros [|]; [apply emits_removeDirectory|apply emits_ret]. }
  intros _. apply emits_bind; [|intros _; apply emits_ret].
  apply emits_shell. intros st. apply (P_cp _ st).
Qed.

Lemma emits_release_unchanged : emits P (release_unchanged host).
Proof.
  unfold release_unchanged. apply emits_tryCatch.
  - apply emits_bind; [apply emits_shell, P_add|]. intros _.
    apply emits_bind; [apply emits_shell, P_diff|]. intros _.
    apply emits_bind; [apply emits_log, P_log|]. intros _. apply emits_ret.
  - intros _. apply emits_ret.
Qed.

Hypothesis P_config : forall x st, P (Exec ("git config " +++ x) st).
Hypothesis P_commit : forall x st, P (Exec ("git commit " +++ x) st).
Hypothesis P_tag : forall x st, P (Exec ("git tag " +++ x) st).

Lemma emits_release_commit (modules : list path) :
  emits P (release_commit host env this modules).
Proof.
  unfold release_commit.
  apply emits_bind.
  { apply emits_shell. intros st.
    apply (P_config ("user.name " +++ gitUsername this) st). }
  intros _. apply emits_bind.
  { apply emits_shell. intros st.
    apply (P_config ("user.email " +++ gitUseremail this) st). }
  intros _. apply emits_bind.
  { apply emits_nullishM, emits_reads, reads_createReleaseMessage. }
  intros msg. apply emits_bind; [|intros _; apply emits_ret].
  apply emits_shell. intros st. apply (P_commit _ st).
Qed.

Lemma emits_createTag (md repoDir : path) :
  emits P (createTag host this md repoDir).
Proof.
  unfold createTag.
  apply emits_bind; [apply emits_extractVersion|]. intros v.
  apply emits_bind; [|intros _; apply emits_ret].
  apply emits_shell. intros st. apply (P_tag _ st).
Qed.

Lemma emits_release_dry :
  _cloner this = cloneGitHub host env ->
  dryRun this = true ->
  emits P (release host env this).
Proof.
  intros Hcl Hdry. unfold release.
  apply emits_bind; [apply emits_release_clone, Hcl|].
  intros [modules repoDir].
  apply emits_bind; [apply emits_release_checkout|]. intros _.
  unfold release_from_sync.
  apply emits_bind; [apply emits_syncModules|]. intros _.
  apply emits_bind; [apply emits_release_unchanged|].
  intros [|]; [apply emits_ret|].
  apply emits_bind; [apply emits_release_commit|]. intros _.
  unfold release_publish.
  apply emits_bind.
  { apply emits_mapM. intros md. apply emits_createTag. }
  intros tags. apply emits_bind; [|intros _; apply emits_ret].
  rewrite Hdry.
  apply emits_bind; [apply emits_log, P_log|]. intros _.
  apply emits_forEach. intros t. apply emits_log, P_log.
Qed.

End Stages.

End Properties.

Section Pipeline.

Context {E : Type}.
Variable host : Host E.
Variable env : Env.
Variable this : GoReleaser E.

(** ** Running [release] stage by stage *)

Lemma bind_ret_inv {A B : Type} (c : M E A) (k : A -> M E B)
    (m m' : Machine E) (b : B) :
  bind c k m = (Ret b, m') ->
  exists a m1, c m = (Ret a, m1) /\ k a m1 = (Ret b, m').
Proof.
  unfold bind. destruct (c m) as [[a|x] m1]; [|discriminate].
  intros H. exists a, m1. split; [reflexivity|exact H].
Qed.

Lemma shell_run (cmd : string) (m : Machine E) (st : nat) (out : string)
    (w : World E) :
  exec host cmd (world m) = (st, out, w) ->
  shell host cmd m
  = (match st with O => Ret out | S _ => Throw (ShellError cmd st) end,
     ran m w [Exec cmd st]).
Proof. intros H. unfold shell. rewrite H. destruct st; reflexivity. Qed.

Lemma shell_ret_inv (cmd : string) (m m' : Machine E) (out : string) :
  shell host cmd m = (Ret out, m') ->
  exists w, exec host cmd (world m) = (0, out, w) /\ m' = ran m w [Exec cmd 0].
Proof.
  unfold shell. destruct (exec host cmd (world m)) as [[st o] w].
  destruct st; [|discriminate]. intros H. inversion H. subst.
  exists w. split; reflexivity.
Qed.

Lemma release_run (m0 m1 m2 : Machine E) (modules : list path)
    (repoDir : path) (chk : string) :
  release_clone host this m0 = (Ret (modules, repoDir), m1) ->
  release_checkout host this m1 = (Ret chk, m2) ->
  release host env this m0 = release_from_sync host env this modules repoDir m2.
Proof.
  intros H1 H2. unfold release. unfold bind at 1. rewrite H1.
  unfold bind at 1. rewrite H2. reflexivity.
Qed.

Lemma release_from_sync_run (m2 m3 : Machine E) (modules : list path)
    (repoDir : path) :
  syncModules host this repoDir m2 = (Ret tt, m3) ->
  release_from_sync host env this modules repoDir m2
  = (unchanged <- release_unchanged host ;;
     if unchanged then ret {| tags := None |}
     else release_commit host env this modules ;;
          release_publish host this modules repoDir) m3.
Proof.
  intros H. unfold release_from_sync. unfold bind at 1. rewrite H. reflexivity.
Qed.

Lemma events_of {A : Type} (P : event -> Prop) (c : M E A)
    (m m' : Machine E) (o : outcome A) :
  emits P c -> c m = (o, m') ->
  exists evs, events m' = events m ++ evs /\ Forall P evs.
Proof. intros Hc H. specialize (Hc m). rewrite H in Hc. exact Hc. Qed.

(** ** The no-op release *)

(** C4.  When the synchronised tree has been staged ([git add .] exits
    with 0) and [git diff-index --exit-code HEAD --] exits with 0, the run
    returns normally a result without tags; its last events are the two
    commands and the line that announces the skip, and no command of the
    whole run starts with [git commit], [git tag] or [git push]. *)
Theorem release_no_changes :
  forall (m0 m1 m2 m3 : Machine E) (modules : list path) (repoDir : path)
         (chk out1 out2 : string) (w4 w5 : World E),
    _cloner this = cloneGitHub host env ->
    release_clone host this m0 = (Ret (modules, repoDir), m1) ->
    release_checkout host this m1 = (Ret chk, m2) ->
    syncModules host this repoDir m2 = (Ret tt, m3) ->
    exec host "git add ." (world m3) = (0, out1, w4) ->
    exec host "git diff-index --exit-code HEAD --" w4 = (0, out2, w5) ->
    exists before : list event,
      let evs := before ++ [Exec "git add ." 0;
                            Exec "git diff-index --exit-code HEAD --" 0;
                            Log "No changes. Skipping release"] in
      release host env this m0 = (Ret {| tags := None |}, ran m0 w5 evs)
      /\ Forall (never ["git commit"; "git tag"; "git push"]%string) evs.
Proof.
  intros m0 m1 m2 m3 modules repoDir chk out1 out2 w4 w5
         Hcl H1 H2 H3 Hadd Hdiff.
  set (P := never ["git commit"; "git tag"; "git push"]%string).
  destruct (events_of P _ m0 m1 _
              (emits_release_clone host env P this
                 (fun _ => eq_refl) (fun _ _ => eq_refl) Hcl) H1)
    as [e1 [E1 F1]].
  destruct (events_of P _ m1 m2 _
              (emits_release_checkout host P this (fun _ _ => eq_refl)) H2)
    as [e2 [E2 F2]].
  destruct (events_of P _ m2 m3 _
              (emits_syncModules host P this (fun _ _ => eq_refl) repoDir) H3)
    as [e3 [E3 F3]].
  exists (e1 ++ e2 ++ e3). split.
  - rewrite (release_run m0 m1 m2 modules repoDir chk H1 H2).
    rewrite (release_from_sync_run m2 m3 modules repoDir H3).
    unfold bind at 1. unfold release_unchanged, tryCatch.
    unfold bind at 1. rewrite (shell_run _ m3 0 out1 w4 Hadd).
    unfold bind at 1.
    rewrite (shell_run _ (ran m3 w4 [Exec "git add ." 0]) 0 out2 w5 Hdiff).
    unfold bind, log, ret, ran. simpl.
    rewrite E3, E2, E1. rewrite <- !app_assoc. reflexivity.
  - apply Forall_app. split.
    + apply Forall_app. split; [exact F1|].
      apply Forall_app. split; assumption.
    + repeat constructor.
Qed.

(** ** Tags *)

Lemma createTag_inv (md repoDir : path) (m m' : Machine E) (t : string) :
  createTag host this md repoDir m = (Ret t, m') ->
  exists v w,
    extractVersion this md m = (Ret v, m)
    /\ t = tag_name md repoDir v
    /\ m' = ran m w [Exec (tag_command t) 0].
Proof.
  unfold createTag. intros H.
  apply bind_ret_inv in H. destruct H as [v [m1 [Hv H]]].
  assert (Hm1 : m1 = m).
  { pose proof (reads_extractVersion this md m m eq_refl eq_refl) as Hr.
    rewrite Hv in Hr. inversion Hr. reflexivity. }
  subst m1.
  apply bind_ret_inv in H. destruct H as [out [m2 [Hs H]]].
  apply shell_ret_inv in Hs. destruct Hs as [w [_ Hm2]].
  unfold ret in H. inversion H. subst.
  exists v, w. split; [exact Hv|]. split; reflexivity.
Qed.

Lemma createTag_all (repoDir : path) :
  forall (modules : list path) (m m' : Machine E) (tags : list string),
    mapM (fun md => createTag host this md repoDir) modules m = (Ret tags, m') ->
    length tags = length modules
    /\ events m' = events m ++ map (fun t => Exec (tag_command t) 0) tags.
Proof.
  induction modules as [|md modules IH]; intros m m' tags H.
  - simpl in H. unfold ret in H. inversion H. subst. simpl.
    rewrite app_nil_r. split; reflexivity.
  - cbn [mapM] in H.
    apply bind_ret_inv in H. destruct H as [t [m1 [Ht H]]].
    apply bind_ret_inv in H. destruct H as [ts [m2 [Hts H]]].
    unfold ret in H. inversion H. subst.
    apply createTag_inv in Ht. destruct Ht as [v [w [_ [_ Hm1]]]].
    destruct (IH m1 m' ts Hts) as [Hlen Hev].
    split; [simpl; rewrite Hlen; reflexivity|].
    rewrite Hev, Hm1. simpl. rewrite <- app_assoc. reflexivity.
Qed.

(** ** Pushing *)

Lemma push_loop :
  forall (targets : list string) (m : Machine E),
    (exists mf,
        forEach targets (fun t => _ <- shell host (push_command t) ;; ret tt) m
        = (Ret tt, mf)
        /\ events mf = events m ++ succeeded (map push_command targets))
    \/ (exists done c rest st mf,
           map push_command targets = done ++ c :: rest
           /\ st <> 0
           /\ forEach targets (fun t => _ <- shell host (push_command t) ;; ret tt) m
              = (Throw (ShellError c st), mf)
           /\ events mf = events m ++ succeeded done ++ [Exec c st]).
Proof.
  induction targets as [|t targets IH]; intros m.
  - left. exists m. split; [reflexivity|]. simpl. rewrite app_nil_r. reflexivity.
  - destruct (exec host (push_command t) (world m)) as [[st out] w] eqn:Hx.
    assert (Hstep :
              forEach (t :: targets)
                (fun t => _ <- shell host (push_command t) ;; ret tt) m
              = match st with
                | O => forEach targets
                         (fun t => _ <- shell host (push_command t) ;; ret tt)
                         (ran m w [Exec (push_command t) 0])
                | S _ => (Throw (ShellError (push_command t) st),
                          ran m w [Exec (push_command t) st])
                end).
    { cbn [forEach]. unfold bind at 1. unfold bind at 1.
      rewrite (shell_run _ m st out w Hx). destruct st; reflexivity. }
    rewrite Hstep. clear Hstep. cbn [map].
    destruct st as [|st].
    + destruct (IH (ran m w [Exec (push_command t) 0]))
        as [[mf [Hrun Hev]]|[done [c [rest [st [mf [Hsplit [Hst [Hrun Hev]]]]]]]]].
      * left. exists mf. split; [exact Hrun|].
        rewrite Hev. simpl. rewrite <- app_assoc. reflexivity.
      * right. exists (push_command t :: done), c, rest, st, mf.
        split; [simpl; rewrite Hsplit; reflexivity|].
        split; [exact Hst|]. split; [exact Hrun|].
        rewrite Hev. simpl. rewrite <- app_assoc. reflexivity.
    + right. exists [], (push_command t), (map push_command targets), (S st).
      eexists. split; [reflexivity|]. split; [discriminate|].
      split; reflexivity.
Qed.

Lemma release_publish_run (m3 m4 m5 m6 : Machine E) (modules : list path)
    (repoDir : path) :
  release_unchanged host m3 = (Ret false, m4) ->
  release_commit host env this modules m4 = (Ret tt, m5) ->
  (unchanged <- release_unchanged host ;;
   if unchanged then ret {| tags := None |}
   else release_commit host env this modules ;;
        release_publish host this modules repoDir) m3
  = release_publish host this modules repoDir m5.
Proof.
  intros H4 H5. unfold bind at 1. rewrite H4.
  unfold bind at 1. rewrite H5. reflexivity.
Qed.

(** C7.  In normal mode, once the commit is made and the tags are
    created, the commands that follow are [git push origin BRANCH] and then
    one [git push origin TAG] per tag in the order of the modules.  Either
    all of them exit with 0 and the run returns the tags, or the run stops
    at the first one that does not: that command is the last event, the
    commands after it are not run, and its failure is what the run
    raises. *)
Theorem release_push_order :
  forall (m0 m1 m2 m3 m4 m5 m6 : Machine E) (modules : list path)
         (repoDir : path) (chk : string) (created : list string),
    dryRun this = false ->
    release_clone host this m0 = (Ret (modules, repoDir), m1) ->
    release_checkout host this m1 = (Ret chk, m2) ->
    syncModules host this repoDir m2 = (Ret tt, m3) ->
    release_unchanged host m3 = (Ret false, m4) ->
    release_commit host env this modules m4 = (Ret tt, m5) ->
    mapM (fun md => createTag host this md repoDir) modules m5
    = (Ret created, m6) ->
    let pushes := map push_command (gitBranch this :: created) in
    (exists mf,
        release host env this m0 = (Ret {| tags := Some created |}, mf)
        /\ events mf = events m6 ++ succeeded pushes)
    \/ (exists done c rest st mf,
           pushes = done ++ c :: rest
           /\ st <> 0
           /\ release host env this m0 = (Throw (ShellError c st), mf)
           /\ events mf = events m6 ++ succeeded done ++ [Exec c st]).
Proof.
  intros m0 m1 m2 m3 m4 m5 m6 modules repoDir chk created
         Hdry H1 H2 H3 H4 H5 H6 pushes.
  rewrite (release_run m0 m1 m2 modules repoDir chk H1 H2).
  rewrite (release_from_sync_run m2 m3 modules repoDir H3).
  rewrite (release_publish_run m3 m4 m5 m6 modules repoDir H4 H5).
  destruct (exec host (push_command (gitBranch this)) (world m6))
    as [[st out] w] eqn:Hx.
  assert (Hstep :
            release_publish host this modules repoDir m5
            = match st with
              | O =>
                  (forEach created
                     (fun t => _ <- shell host (push_command t) ;; ret tt) ;;
                   ret {| tags := Some created |})
                    (ran m6 w [Exec (push_command (gitBranch this)) 0])
              | S _ => (Throw (ShellError (push_command (gitBranch this)) st),
                        ran m6 w [Exec (push_command (gitBranch this)) st])
              end).
  { unfold release_publish. unfold bind at 1. rewrite H6. rewrite Hdry.
    unfold bind at 1. unfold bind at 1.
    fold (push_command (gitBranch this)).
    rewrite (shell_run _ m6 st out w Hx). destruct st; reflexivity. }
  rewrite Hstep. clear Hstep. unfold pushes. cbn [map].
  destruct st as [|st].
  - unfold bind at 1. unfold bind at 2.
    destruct (push_loop created (ran m6 w [Exec (push_command (gitBranch this)) 0]))
      as [[mf [Hrun Hev]]|[done [c [rest [st [mf [Hsplit [Hst [Hrun Hev]]]]]]]]].
    + left. exists mf. rewrite Hrun.
      split; [reflexivity|].
      rewrite Hev. simpl. rewrite <- app_assoc. reflexivity.
    + right. exists (push_command (gitBranch this) :: done), c, rest, st, mf.
      rewrite Hrun.
      split; [simpl; rewrite Hsplit; reflexivity|].
      split; [exact Hst|]. split; [reflexivity|].
      rewrite Hev. simpl. rewrite <- app_assoc. reflexivity.
  - right. exists [], (push_command (gitBranch this)),
             (map push_command created), (S st).
    eexists. split; [reflexivity|]. split; [discriminate|].
    split; reflexivity.
Qed.

(** ** Dry run *)

(** C8.  In dry-run mode, once the commit is made and the tags are
    created: the run returns the created tags; what follows the tag
    commands is only the line that names the branch and one line per tag;
    no command of the whole run starts with [git push]; and the tag
    commands are those of normal mode, one [git tag -a] per module. *)
Theorem release_dry_run :
  forall (m0 m1 m2 m3 m4 m5 m6 : Machine E) (modules : list path)
         (repoDir : path) (chk : string) (created : list string),
    dryRun this = true ->
    _cloner this = cloneGitHub host env ->
    release_clone host this m0 = (Ret (modules, repoDir), m1) ->
    release_checkout host this m1 = (Ret chk, m2) ->
    syncModules host this repoDir m2 = (Ret tt, m3) ->
    release_unchanged host m3 = (Ret false, m4) ->
    release_commit host env this modules m4 = (Ret tt, m5) ->
    mapM (fun md => createTag host this md repoDir) modules m5
    = (Ret created, m6) ->
    release host env this m0
    = (Ret {| tags := Some created |}, logged m6 (announcements this created))
    /\ (exists evs,
           events (logged m6 (announcements this created)) = events m0 ++ evs
           /\ Forall (never ["git push"%string]) evs)
    /\ mapM (fun md => createTag host (with_dryRun this false) md repoDir)
             modules m5
        = (Ret created, m6)
    /\ length created = length modules
    /\ events m6 = events m5 ++ map (fun t => Exec (tag_command t) 0) created.
Proof.
  intros m0 m1 m2 m3 m4 m5 m6 modules repoDir chk created
         Hdry Hcl H1 H2 H3 H4 H5 H6.
  assert (Hrun : release host env this m0
                 = (Ret {| tags := Some created |},
                    logged m6 (announcements this created))).
  { rewrite (release_run m0 m1 m2 modules repoDir chk H1 H2).
    rewrite (release_from_sync_run m2 m3 modules repoDir H3).
    rewrite (release_publish_run m3 m4 m5 m6 modules repoDir H4 H5).
    unfold release_publish. unfold bind at 1. rewrite H6. rewrite Hdry.
    unfold bind at 1. unfold bind at 1. unfold log at 1.
    rewrite forEach_log. unfold ret, logged, announcements. simpl.
    rewrite <- app_assoc. reflexivity. }
  split; [exact Hrun|]. split.
  - pose proof (emits_release_dry host env (never ["git push"%string]) this
                  (fun _ => eq_refl) (fun _ _ => eq_refl)
                  (fun _ _ => eq_refl) (fun _ _ => eq_refl)
                  (fun _ => eq_refl) (fun _ => eq_refl)
                  (fun _ _ => eq_refl) (fun _ _ => eq_refl)
                  (fun _ _ => eq_refl) Hcl Hdry m0) as Hev.
    rewrite Hrun in Hev. exact Hev.
  - split; [exact H6|]. exact (createTag_all repoDir modules m5 m6 created H6).
Qed.

(** ** Checkout *)

(** C9 (as amended).  Whatever the non-zero exit status of
    [git checkout BRANCH], the next command is [git checkout -b BRANCH].
    When that one exits with 0 the run goes on with the synchronisation;
    when it does not, its failure is what the run raises. *)
Theorem release_checkout_fallback :
  forall (m0 m1 : Machine E) (modules : list path) (repoDir : path)
         (st st' : nat) (out out' : string) (w w' : World E),
    release_clone host this m0 = (Ret (modules, repoDir), m1) ->
    exec host ("git checkout " +++ gitBranch this) (world m1) = (st, out, w) ->
    st <> 0 ->
    exec host ("git checkout -b " +++ gitBranch this) w = (st', out', w') ->
    let m2 := ran m1 w' [Exec ("git checkout " +++ gitBranch this) st;
                         Exec ("git checkout -b " +++ gitBranch this) st'] in
    (st' = 0 ->
     release host env this m0
     = release_from_sync host env this modules repoDir m2)
    /\ (st' <> 0 ->
        release host env this m0
        = (Throw (ShellError ("git checkout -b " +++ gitBranch this) st'), m2)).
Proof.
  intros m0 m1 modules repoDir st st' out out' w w' H1 Hx Hst Hx' m2.
  assert (Hchk : release_checkout host this m1
                 = (match st' with
                    | O => Ret out'
                    | S _ => Throw (ShellError ("git checkout -b " +++ gitBranch this) st')
                    end, m2)).
  { unfold release_checkout, tryCatch.
    rewrite (shell_run _ m1 st out w Hx).
    destruct st as [|st]; [contradiction Hst; reflexivity|].
    rewrite (shell_run _ (ran m1 w [Exec ("git checkout " +++ gitBranch this) (S st)])
               st' out' w' Hx').
    unfold m2, ran. simpl. rewrite <- app_assoc. reflexivity. }
  split.
  - intros ->. exact (release_run m0 m1 m2 modules repoDir out' H1 Hchk).
  - intros Hst'. unfold release. unfold bind at 1. rewrite H1.
    unfold bind at 1. rewrite Hchk.
    destruct st' as [|st']; [contradiction Hst'; reflexivity|reflexivity].
Qed.

End Pipeline.

(** ** Updating the file system *)

Lemma lookup_replace_same (x : string) (f : node -> node)
    (es : list (string * node)) :
  lookup x (replace_entry x f es) = option_map f (lookup x es).
Proof.
  induction es as [|[y c] es IH]; simpl; [reflexivity|].
  destruct (String.eqb x y) eqn:Hxy; simpl; rewrite Hxy; [reflexivity|exact IH].
Qed.

Lemma lookup_replace_other (x y : string) (f : node -> node)
    (es : list (string * node)) :
  x <> y -> lookup y (replace_entry x f es) = lookup y es.
Proof.
  intros Hne. induction es as [|[z c] es IH]; simpl; [reflexivity|].
  destruct (String.eqb x z) eqn:Hxz; simpl.
  - apply String.eqb_eq in Hxz. subst z.
    destruct (String.eqb y x) eqn:Hyx; [|reflexivity].
    apply String.eqb_eq in Hyx. exfalso. apply Hne. symmetry. exact Hyx.
  - destruct (String.eqb y z); [reflexivity|exact IH].
Qed.

Lemma replace_entry_ext (x : string) (f g : node -> node)
    (es : list (string * node)) :
  (forall n, lookup x es = Some n -> f n = g n) ->
  replace_entry x f es = replace_entry x g es.
Proof.
  induction es as [|[y c] es IH]; simpl; intros H; [reflexivity|].
  destruct (String.eqb x y).
  - rewrite (H c eq_refl). reflexivity.
  - rewrite (IH H). reflexivity.
Qed.

Lemma replace_entry_twice (x : string) (f g : node -> node)
    (es : list (string * node)) :
  replace_entry x g (replace_entry x f es)
  = replace_entry x (fun n => g (f n)) es.
Proof.
  induction es as [|[y c] es IH]; simpl; [reflexivity|].
  destruct (String.eqb x y) eqn:Hxy; simpl; rewrite Hxy;
    [reflexivity|rewrite IH; reflexivity].
Qed.

Lemma replace_entry_same (x : string) (es : list (string * node)) :
  replace_entry x (fun n => n) es = es.
Proof.
  induction es as [|[y c] es IH]; simpl; [reflexivity|].
  destruct (String.eqb x y); [reflexivity|rewrite IH; reflexivity].
Qed.

Lemma fs_get_update (t : node) (p q : location) (f : node -> node) (n : node) :
  fs_get t p = Some n ->
  fs_get (fs_update t p f) (p ++ q) = fs_get (f n) q.
Proof.
  revert t. induction p as [|x p IH]; intros t; simpl.
  - intros H. inversion H. subst. reflexivity.
  - destruct t as [c|es]; [discriminate|].
    rewrite lookup_replace_same.
    destruct (lookup x es) as [c|]; [|discriminate].
    simpl. apply IH.
Qed.

Lemma fs_get_update_diverge (t : node) (p q : location) (f : node -> node) :
  diverge p q = true -> fs_get (fs_update t p f) q = fs_get t q.
Proof.
  revert t q. induction p as [|x p IH]; intros t q; simpl; [discriminate|].
  destruct q as [|y q]; [discriminate|].
  destruct t as [c|es]; [reflexivity|]. simpl.
  destruct (String.eqb x y) eqn:Hxy.
  - apply String.eqb_eq in Hxy. subst y. intros Hd.
    rewrite lookup_replace_same.
    destruct (lookup x es) as [c|]; [|reflexivity].
    simpl. apply IH. exact Hd.
  - apply String.eqb_neq in Hxy. intros _.
    rewrite (lookup_replace_other x y _ es Hxy). reflexivity.
Qed.

Lemma fs_update_ext (t : node) (p : location) (f g : node -> node) :
  (forall n, fs_get t p = Some n -> f n = g n) ->
  fs_update t p f = fs_update t p g.
Proof.
  revert t. induction p as [|x p IH]; intros t; simpl.
  - intros H. apply H. reflexivity.
  - destruct t as [c|es]; [reflexivity|]. intros H. f_equal.
    apply replace_entry_ext. intros c Hc. apply IH.
    intros n Hn. apply H. rewrite Hc. exact Hn.
Qed.

Lemma fs_update_twice (t : node) (p : location) (f g : node -> node) :
  fs_update (fs_update t p f) p g = fs_update t p (fun n => g (f n)).
Proof.
  revert t. induction p as [|x p IH]; intros t; simpl; [reflexivity|].
  destruct t as [c|es]; [reflexivity|]. f_equal.
  rewrite replace_entry_twice. apply replace_entry_ext.
  intros c _. apply IH.
Qed.

Lemma fs_update_app (t : node) (p q : location) (f : node -> node) :
  fs_update t (p ++ q) f = fs_update t p (fun n => fs_update n q f).
Proof.
  revert t. induction p as [|x p IH]; intros t; simpl; [reflexivity|].
  destruct t as [c|es]; [reflexivity|]. f_equal.
  apply replace_entry_ext. intros c _. apply IH.
Qed.

Lemma fs_update_same (t : node) (p : location) :
  fs_update t p (fun n => n) = t.
Proof.
  revert t. induction p as [|x p IH]; intros t; simpl; [reflexivity|].
  destruct t as [c|es]; [reflexivity|]. f_equal.
  rewrite <- (replace_entry_same x es) at 2.
  apply replace_entry_ext. intros c _. apply IH.
Qed.

(** ** Directory listings *)

Lemma lookup_keep_names (keep : string -> bool) (x : string)
    (es : list (string * node)) :
  lookup x (keep_names keep es) = if keep x then lookup x es else None.
Proof.
  induction es as [|[y c] es IH]; simpl.
  - destruct (keep x); reflexivity.
  - destruct (keep y) eqn:Hy; simpl.
    + destruct (String.eqb x y) eqn:Hxy.
      * apply String.eqb_eq in Hxy. subst y. rewrite Hy. reflexivity.
      * exact IH.
    + destruct (String.eqb x y) eqn:Hxy; [|exact IH].
      apply String.eqb_eq in Hxy. subst y. rewrite Hy in *. exact IH.
Qed.

Lemma keep_names_twice (f g : string -> bool) (es : list (string * node)) :
  keep_names f (keep_names g es) = keep_names (fun n => andb (g n) (f n)) es.
Proof.
  induction es as [|[y c] es IH]; simpl; [reflexivity|].
  destruct (g y); simpl; [destruct (f y)|]; rewrite IH; reflexivity.
Qed.

Lemma keep_names_ext (f g : string -> bool) (es : list (string * node)) :
  (forall n, In n (names es) -> f n = g n) ->
  keep_names f es = keep_names g es.
Proof.
  intros H. unfold keep_names. apply filter_ext_in.
  intros [y c] Hin. simpl. apply H. unfold names.
  apply (in_map fst) in Hin. exact Hin.
Qed.

Lemma keep_names_replace (keep : string -> bool) (x : string)
    (f : node -> node) (es : list (string * node)) :
  keep x = false ->
  keep_names keep (replace_entry x f es) = keep_names keep es.
Proof.
  intros Hx. induction es as [|[y c] es IH]; simpl; [reflexivity|].
  destruct (String.eqb x y) eqn:Hxy; simpl.
  - apply String.eqb_eq in Hxy. subst y. rewrite Hx. reflexivity.
  - rewrite IH. reflexivity.
Qed.


(** ** Content synchronisation *)

Section Sync.

Context {E : Type}.
Variable host : Host E.
Variable this : GoReleaser E.

Lemma with_tree_same (m : Machine E) : with_tree m (fs (world m)) = m.
Proof. destruct m as [[t c x] evs]. reflexivity. Qed.

Lemma fs_update_const_same (t : node) (p : location) (n : node) :
  fs_get t p = Some n -> fs_update t p (fun _ => n) = t.
Proof.
  intros H. rewrite <- (fs_update_same t p) at 2.
  apply fs_update_ext. intros k Hk. rewrite H in Hk. inversion Hk. reflexivity.
Qed.

Lemma keep_names_none (es : list (string * node)) :
  keep_names (fun n => Js.mem n []) es = [].
Proof. induction es as [|[y c] es IH]; simpl; [reflexivity|exact IH]. Qed.

Lemma keep_names_all (keep : string -> bool) (es : list (string * node)) :
  (forall n, In n (names es) -> keep n = true) -> keep_names keep es = es.
Proof.
  induction es as [|[y c] es IH]; simpl; intros H; [reflexivity|].
  rewrite (H y (or_introl eq_refl)). rewrite IH; [reflexivity|].
  intros n Hn. apply H. right. exact Hn.
Qed.

Lemma removeDirectory_contents (d : path) (exclude : list string)
    (m : Machine E) (es : list (string * node)) :
  fs_get (fs (world m)) (locate m d) = Some (Dir es) ->
  removeDirectory d false exclude m
  = (Ret tt,
     with_tree m (fs_update (fs (world m)) (locate m d) (clear_dir exclude))).
Proof.
  intros H. unfold removeDirectory. unfold bind at 1.
  unfold readdirSync. rewrite H. reflexivity.
Qed.

Lemma drop_after_clear (p : string) (n : node) :
  drop_entry p (fs_update n [p] (clear_dir [])) = drop_entry p n.
Proof.
  destruct n as [c|es]; [reflexivity|]. simpl. f_equal.
  apply keep_names_replace. rewrite String.eqb_refl. reflexivity.
Qed.

Lemma removeDirectory_entry (d : path) (p : string) (m : Machine E)
    (es : list (string * node)) :
  fs_get (fs (world m)) (locate m (join d p)) = Some (Dir es) ->
  removeDirectory (join d p) true [] m
  = (Ret tt, with_tree m (fs_update (fs (world m)) (locate m d) (drop_entry p))).
Proof.
  intros H. unfold removeDirectory. unfold bind at 1.
  unfold readdirSync at 1. rewrite H.
  unfold bind at 1. unfold realpath at 1.
  unfold bind at 1. unfold set_fs at 1.
  unfold bind at 1. unfold readdirSync. unfold locate at 2. cbn [world fs cwd].
  fold (locate m (join d p)).
  pose proof (fs_get_update (fs (world m)) (locate m (join d p)) []
                (clear_dir []) _ H) as Hc.
  rewrite app_nil_r in Hc. rewrite Hc. cbn [fs_get clear_dir].
  rewrite keep_names_none. cbn [names map].
  unfold set_fs, with_tree. cbn [world fs cwd ext events]. f_equal. f_equal. f_equal.
  rewrite locate_join, removelast_last, last_last.
  rewrite fs_update_app, fs_update_twice.
  apply fs_update_ext. intros n _. apply drop_after_clear.
Qed.

Lemma submodule_lookup (m : Machine E) (repoDir : path)
    (es : list (string * node)) (p : string) :
  fs_get (fs (world m)) (locate m repoDir) = Some (Dir es) ->
  fs_get (fs (world m)) (locate m (join (join repoDir p) "go.mod"))
  = fs_get (Dir es) [p; "go.mod"%string].
Proof.
  intros H. rewrite !locate_join, <- app_assoc. rewrite fs_get_app, H.
  reflexivity.
Qed.

Lemma submodule_is_directory (es : list (string * node)) (p : string) :
  submodule es p = true ->
  exists ces, fs_get (Dir es) [p] = Some (Dir ces).
Proof.
  unfold submodule. simpl. destruct (lookup p es) as [[c|ces]|]; try discriminate.
  intros _. exists ces. reflexivity.
Qed.

Lemma submodule_after_drop (es : list (string * node)) (p n : string) :
  String.eqb n p = false ->
  submodule (keep_names (fun k => negb (String.eqb k p)) es) n = submodule es n.
Proof.
  intros Hnp. unfold submodule. simpl.
  rewrite lookup_keep_names, Hnp. reflexivity.
Qed.

Lemma remove_submodules_loop (repoDir : path) :
  forall (ps : list string) (m : Machine E) (cur : list (string * node)),
    fs_get (fs (world m)) (locate m repoDir) = Some (Dir cur) ->
    forEach ps (fun p =>
      sub <- existsSync (join (join repoDir p) "go.mod") ;;
      if sub then removeDirectory (join repoDir p) true [] else ret tt) m
    = (Ret tt,
       with_tree m
         (fs_update (fs (world m)) (locate m repoDir)
            (fun _ => Dir (keep_names (fun n => negb (doomed ps cur n)) cur)))).
Proof.
  induction ps as [|p ps IH]; intros m cur Hcur.
  - simpl. unfold ret. f_equal.
    rewrite keep_names_all by reflexivity.
    rewrite (fs_update_const_same _ _ _ Hcur). symmetry. apply with_tree_same.
  - cbn [forEach]. unfold bind at 1. unfold bind at 1. unfold existsSync at 1.
    rewrite (submodule_lookup m repoDir cur p Hcur).
    fold (submodule cur p).
    destruct (submodule cur p) eqn:Hsub.
    + destruct (submodule_is_directory cur p Hsub) as [ces Hces].
      assert (Hp : fs_get (fs (world m)) (locate m (join repoDir p))
                   = Some (Dir ces)).
      { rewrite locate_join, fs_get_app, Hcur. exact Hces. }
      rewrite (removeDirectory_entry repoDir p m ces Hp).
      set (cur1 := keep_names (fun k => negb (String.eqb k p)) cur).
      set (m1 := with_tree m
                   (fs_update (fs (world m)) (locate m repoDir) (drop_entry p))).
      assert (Hcur1 : fs_get (fs (world m1)) (locate m1 repoDir)
                      = Some (Dir cur1)).
      { change (locate m1 repoDir) with (locate m repoDir).
        unfold m1. cbn [with_tree world fs].
        pose proof (fs_get_update (fs (world m)) (locate m repoDir) []
                      (drop_entry p) _ Hcur) as Hg.
        rewrite app_nil_r in Hg. exact Hg. }
      rewrite (IH m1 cur1 Hcur1).
      change (locate m1 repoDir) with (locate m repoDir).
      unfold m1, with_tree. cbn [world fs cwd ext events].
      f_equal. f_equal. f_equal. rewrite fs_update_twice.
      apply fs_update_ext. intros _ _. f_equal.
      unfold cur1. rewrite keep_names_twice. apply keep_names_ext.
      intros n _. unfold doomed. cbn [Js.mem existsb].
      destruct (String.eqb n p) eqn:Hnp.
      * apply String.eqb_eq in Hnp. subst n. rewrite Hsub. reflexivity.
      * fold (Js.mem n ps). rewrite (submodule_after_drop cur p n Hnp).
        reflexivity.
    + unfold ret at 1. rewrite (IH m cur Hcur). f_equal. f_equal.
      apply fs_update_ext. intros _ _. f_equal. apply keep_names_ext.
      intros n _. unfold doomed. cbn [Js.mem existsb].
      destruct (String.eqb n p) eqn:Hnp; [|reflexivity].
      apply String.eqb_eq in Hnp. subst n. rewrite Hsub.
      rewrite !andb_false_r. reflexivity.
Qed.

Lemma syncModules_clear (repoDir : path) (m : Machine E)
    (es : list (string * node)) :
  fs_get (fs (world m)) (locate m repoDir) = Some (Dir es) ->
  syncModules host this repoDir m
  = (_ <- shell host ("cp -r " +++ render (dir this) +++ "/* "
                      +++ render repoDir) ;;
     ret tt)
      (with_tree m (fs_update (fs (world m)) (locate m repoDir)
                      (fun _ => Dir (cleared es)))).
Proof.
  intros Hws. unfold syncModules. cbv zeta.
  unfold bind at 1. unfold bind at 1. unfold existsSync at 1.
  assert (Htop : fs_get (fs (world m)) (locate m (join repoDir "go.mod"))
                 = lookup "go.mod" es).
  { rewrite locate_join, fs_get_app, Hws. simpl.
    destruct (lookup "go.mod" es); reflexivity. }
  rewrite Htop. unfold cleared.
  destruct (lookup "go.mod" es) as [c|].
  - rewrite (removeDirectory_contents repoDir _ m es Hws).
    f_equal. f_equal. apply fs_update_ext.
    intros n Hn. rewrite Hws in Hn. inversion Hn. reflexivity.
  - unfold bind at 1. unfold readdirSync. rewrite Hws.
    rewrite (remove_submodules_loop repoDir (names es) m es Hws).
    reflexivity.
Qed.

Lemma lookup_cleared_submodule (es : list (string * node)) (n : string) :
  lookup "go.mod" es = None ->
  lookup n (cleared es) = if submodule es n then None else lookup n es.
Proof.
  intros Htop. unfold cleared. rewrite Htop, lookup_keep_names.
  unfold doomed. destruct (submodule es n) eqn:Hsub.
  - destruct (submodule_is_directory es n Hsub) as [ces Hces].
    simpl in Hces. destruct (lookup n es) as [c|] eqn:Hl; [|discriminate].
    apply lookup_names in Hl. apply mem_In in Hl. rewrite Hl. reflexivity.
  - rewrite andb_false_r. reflexivity.
Qed.

(** C1 (as amended).  The choice between clearing the whole workspace and
    clearing submodules is made on the workspace: on whether the cloned
    repository holds a [go.mod] at its root.  If it does, every entry of the
    workspace but [.git] is removed.  If it does not, the entries of the
    workspace that hold a [go.mod] are removed and every other entry is
    left as it was.  The clearing changes nothing outside the workspace, and
    the synchronisation then is what the copy command
    [cp -r STAGING/* WORKSPACE] does on the cleared workspace. *)
Theorem syncModules_clearing :
  forall (repoDir : path) (m : Machine E) (es : list (string * node)),
    let t := fs (world m) in
    let ws := locate m repoDir in
    fs_get t ws = Some (Dir es) ->
    exists t1 : node,
      syncModules host this repoDir m
      = (_ <- shell host ("cp -r " +++ render (dir this) +++ "/* "
                          +++ render repoDir) ;;
         ret tt) (with_tree m t1)
      /\ (fs_get t (ws ++ ["go.mod"%string]) <> None ->
          fs_get t1 ws
          = Some (Dir (keep_names (fun n => Js.mem n [".git"%string]) es)))
      /\ (fs_get t (ws ++ ["go.mod"%string]) = None ->
          (forall n,
              fs_get t (ws ++ [n; "go.mod"%string]) <> None ->
              fs_get t1 (ws ++ [n]) = None)
          /\ (forall n q,
                 fs_get t (ws ++ [n; "go.mod"%string]) = None ->
                 fs_get t1 (ws ++ n :: q) = fs_get t (ws ++ n :: q)))
      /\ (forall q, diverge ws q = true -> fs_get t1 q = fs_get t q).
Proof.
  intros repoDir m es t ws Hws.
  exists (fs_update t ws (fun _ => Dir (cleared es))).
  assert (Hunder : forall q, fs_get t (ws ++ q) = fs_get (Dir es) q).
  { intros q. rewrite fs_get_app. unfold t. unfold t in Hws. rewrite Hws.
    reflexivity. }
  assert (Htop : fs_get t (ws ++ ["go.mod"%string]) = lookup "go.mod" es).
  { rewrite Hunder. simpl. destruct (lookup "go.mod" es); reflexivity. }
  assert (Hat : forall q, fs_get (fs_update t ws (fun _ => Dir (cleared es)))
                            (ws ++ q)
                          = fs_get (Dir (cleared es)) q).
  { intros q.
    exact (fs_get_update t ws q (fun _ => Dir (cleared es)) _ Hws). }
  split; [|split; [|split]].
  - exact (syncModules_clear repoDir m es Hws).
  - rewrite Htop. intros Hroot.
    specialize (Hat []). rewrite app_nil_r in Hat. rewrite Hat.
    unfold cleared. destruct (lookup "go.mod" es); [reflexivity|].
    exfalso. apply Hroot. reflexivity.
  - rewrite Htop. intros Hroot. split.
    + intros n Hsub. rewrite Hunder in Hsub.
      assert (Hs : submodule es n = true).
      { unfold submodule. destruct (fs_get (Dir es) [n; "go.mod"%string]);
          [reflexivity|exfalso; apply Hsub; reflexivity]. }
      rewrite Hat. simpl.
      rewrite (lookup_cleared_submodule es n Hroot), Hs. reflexivity.
    + intros n q Hsub. rewrite Hunder in Hsub.
      assert (Hs : submodule es n = false).
      { unfold submodule. rewrite Hsub. reflexivity. }
      rewrite Hat, Hunder. simpl.
      rewrite (lookup_cleared_submodule es n Hroot), Hs. reflexivity.
  - intros q Hq. apply fs_get_update_diverge. exact Hq.
Qed.

End Sync.

(** * The statements on concrete runs *)

Module Runs.

Import Fixture.
Local Open Scope string_scope.
Local Open Scope list_scope.

(** C2.  The staging directory [/work/dist/go] holds one root module of
    [github.com/acme/widgets] at version 1.2.3.  The module is the staging
    directory itself, the clone is named after the repository, and the tag
    that [release] creates and pushes is [go/v1.2.3], not [v1.2.3]. *)
Theorem root_module_tag_is_prefixed :
  fst (collectModules staging_dir (boot (disk staging_root)))
  = Ret [staging_dir]
  /\ fst (createTag host0 (releaser host0 env0 false None) staging_dir
            workspace (boot (mirrored staging_root clone_flat)))
     = Ret "go/v1.2.3"
  /\ fst (run host0 env0 (disk staging_root))
     = Ret {| tags := Some ["go/v1.2.3"] |}
  /\ In (Exec "git push origin go/v1.2.3" 0)
        (events (snd (run host0 env0 (disk staging_root)))).
Proof.
  split; [reflexivity|]. split; [reflexivity|]. split; [reflexivity|].
  vm_compute. tauto.
Qed.

(** [extractVersion_priority] on the root module of [dist/go]: pinned to
    9.9.9, read from the [version] file, and with neither. *)
Lemma extractVersion_priority_witness :
  extractVersion (releaser host0 env0 false (Some "9.9.9")) staging_dir
    (boot (disk staging_root))
  = (Ret "9.9.9", boot (disk staging_root))
  /\ extractVersion (releaser host0 env0 false None) staging_dir
       (boot (disk staging_root))
     = (Ret "1.2.3", boot (disk staging_root))
  /\ extractVersion (releaser host0 env0 false None) (join staging_dir "alpha")
       (boot (disk staging_root))
     = (Throw (Error "Unable to determine version of module /work/dist/go/alpha. Either include a 'version' file, or specify a global version using the VERSION environment variable."),
        boot (disk staging_root)).
Proof.
  split; [|split].
  - apply (proj1 (extractVersion_priority
                    (releaser host0 env0 false (Some "9.9.9")) staging_dir
                    (boot (disk staging_root))) "9.9.9").
    + reflexivity.
    + discriminate.
  - apply (proj1 (proj2 (extractVersion_priority
                           (releaser host0 env0 false None) staging_dir
                           (boot (disk staging_root)))) "1.2.3").
    + reflexivity.
    + reflexivity.
  - apply (proj2 (proj2 (extractVersion_priority
                           (releaser host0 env0 false None)
                           (join staging_dir "alpha")
                           (boot (disk staging_root))))).
    + reflexivity.
    + reflexivity.
Defined.

(** [constructor_identity_diagnostics] with an empty e-mail address, and
    with an empty user name. *)
Lemma constructor_identity_diagnostics_witness :
  constructor host0 env_no_email None (boot (disk staging_root))
  = (Throw (Error "Unable to detect username. either configure a global git user.name or pass GIT_USER_NAME env variable"),
     boot (disk staging_root))
  /\ constructor host0 env_no_name None (boot (disk staging_root))
     = (Throw (Error "Unable to detect user email. either configure a global git user.email or pass GIT_USER_EMAIL env variable"),
        boot (disk staging_root)).
Proof.
  split.
  - apply (proj1 (constructor_identity_diagnostics host0 env_no_email None
                    (boot (disk staging_root)) (boot (disk staging_root))
                    (boot (disk staging_root)) "bot" EmptyString
                    eq_refl eq_refl eq_refl)).
    reflexivity.
  - apply (proj2 (constructor_identity_diagnostics host0 env_no_name None
                    (boot (disk staging_root)) (boot (disk staging_root))
                    (boot (disk staging_root)) EmptyString "bot@example.com"
                    eq_refl eq_refl eq_refl)).
    + reflexivity.
    + discriminate.
Defined.

(** C10, as stated, fails when both values are empty: the user name is
    empty and the diagnostic is not the one about the e-mail address. *)
Lemma constructor_both_empty :
  GIT_USER_NAME env_anonymous = Some EmptyString
  /\ constructor host0 env_anonymous None (boot (disk staging_root))
     = (Throw (Error "Unable to detect username. either configure a global git user.name or pass GIT_USER_NAME env variable"),
        boot (disk staging_root))
  /\ fst (constructor host0 env_anonymous None (boot (disk staging_root)))
     <> Throw (Error "Unable to detect user email. either configure a global git user.email or pass GIT_USER_EMAIL env variable").
Proof.
  split; [reflexivity|]. split; [reflexivity|]. discriminate.
Qed.

(** [collectModules_spec] on a staging directory with two submodules. *)
Lemma collectModules_spec_witness :
  exists modules : list path,
    collectModules staging_dir (boot (disk staging_subs))
    = (Ret modules, boot (disk staging_subs))
    /\ (In staging_dir modules
        <-> fs_get (disk staging_subs) ["work"; "dist"; "go"; "go.mod"] <> None)
    /\ (forall p : string,
           In (join staging_dir p) modules
           <-> fs_get (disk staging_subs) ["work"; "dist"; "go"; p; "go.mod"]
               <> None)
    /\ NoDup modules
    /\ (forall x : path,
           In x modules ->
           x = staging_dir
           \/ exists p, In p ["alpha"; "beta"; "README.md"]
                        /\ x = join staging_dir p).
Proof.
  apply (collectModules_spec staging_dir (boot (disk staging_subs))
           [("alpha", Dir [("go.mod", go_mod "github.com/acme/widgets/alpha");
                           ("version", File "0.1.0")]);
            ("beta", Dir [("go.mod", go_mod "github.com/acme/widgets/beta");
                          ("version", File "0.2.0")]);
            ("README.md", File "staged")]).
  - reflexivity.
  - simpl. repeat constructor; simpl; intuition discriminate.
Defined.

(** [release_multiple_repositories] on modules of [acme/widgets] and of
    [acme/gadgets]. *)
Lemma release_multiple_repositories_witness :
  release host0 env0 (releaser host0 env0 false None)
    (boot (disk staging_mixed))
  = (Throw (Error "Multiple repositories found in module files"),
     logged (boot (disk staging_mixed))
       ["Detected modules:"; " - /work/dist/go/alpha";
        " - /work/dist/go/gamma"]).
Proof.
  apply (release_multiple_repositories host0 env0
           (releaser host0 env0 false None) (boot (disk staging_mixed))
           [join staging_dir "alpha"; join staging_dir "gamma"]
           (join staging_dir "alpha") (join staging_dir "gamma")
           "acme/widgets" "acme/gadgets").
  - reflexivity.
  - intros md [H|[H|[]]]; subst md; eexists; reflexivity.
  - simpl. tauto.
  - simpl. tauto.
  - reflexivity.
  - reflexivity.
  - discriminate.
Defined.

(** [release_no_changes] on a clone that already holds what is staged. *)
Lemma release_no_changes_witness :
  exists (before : list event) (w : World unit),
    let evs := before ++ [Exec "git add ." 0;
                          Exec "git diff-index --exit-code HEAD --" 0;
                          Log "No changes. Skipping release"] in
    release host_idle env0 (releaser host_idle env0 false None)
      (boot (disk staging_root))
    = (Ret {| tags := None |}, ran (boot (disk staging_root)) w evs)
    /\ Forall (never ["git commit"; "git tag"; "git push"]) evs.
Proof.
  edestruct (release_no_changes host_idle env0
               (releaser host_idle env0 false None)
               (boot (disk staging_root))) as [before H].
  - vm_compute; reflexivity.
  - vm_compute; reflexivity.
  - vm_compute; reflexivity.
  - vm_compute; reflexivity.
  - vm_compute; reflexivity.
  - vm_compute; reflexivity.
  - exists before. eexists. exact H.
Defined.

(** [release_push_order] on two submodules, when the remote rejects the
    first tag. *)
Lemma release_push_order_witness :
  exists m6 : Machine unit,
    let created := ["alpha/v0.1.0"; "beta/v0.2.0"] in
    let pushes := map push_command ("main" :: created) in
    (exists mf,
        release host_rejecting env0 (releaser host_rejecting env0 false None)
          (boot (disk staging_subs))
        = (Ret {| tags := Some created |}, mf)
        /\ events mf = events m6 ++ succeeded pushes)
    \/ (exists done c rest st mf,
           pushes = done ++ c :: rest
           /\ st <> 0
           /\ release host_rejecting env0
                (releaser host_rejecting env0 false None)
                (boot (disk staging_subs))
              = (Throw (ShellError c st), mf)
           /\ events mf = events m6 ++ succeeded done ++ [Exec c st]).
Proof.
  eexists.
  eapply (release_push_order host_rejecting env0
            (releaser host_rejecting env0 false None)
            (boot (disk staging_subs))).
  - vm_compute; reflexivity.
  - vm_compute; reflexivity.
  - vm_compute; reflexivity.
  - vm_compute; reflexivity.
  - vm_compute; reflexivity.
  - vm_compute; reflexivity.
  - vm_compute; reflexivity.
Defined.

(** [release_dry_run] on two submodules. *)
Lemma release_dry_run_witness :
  exists m5 m6 : Machine unit,
    let this := releaser host0 env0 true None in
    let created := ["alpha/v0.1.0"; "beta/v0.2.0"] in
    release host0 env0 this (boot (disk staging_subs))
    = (Ret {| tags := Some created |},
       logged m6 ["Will push to branch: main";
                  "Will push tag: alpha/v0.1.0";
                  "Will push tag: beta/v0.2.0"])
    /\ (exists evs,
           events (logged m6 ["Will push to branch: main";
                              "Will push tag: alpha/v0.1.0";
                              "Will push tag: beta/v0.2.0"])
           = events (boot (disk staging_subs)) ++ evs
           /\ Forall (never ["git push"]) evs)
    /\ mapM (fun md => createTag host0 (with_dryRun this false) md workspace)
             [join staging_dir "alpha"; join staging_dir "beta"] m5
        = (Ret created, m6)
    /\ length created = 2
    /\ events m6 = events m5 ++ map (fun t => Exec (tag_command t) 0) created.
Proof.
  eexists. eexists.
  eapply (release_dry_run host0 env0 (releaser host0 env0 true None)
            (boot (disk staging_subs))).
  - vm_compute; reflexivity.
  - vm_compute; reflexivity.
  - vm_compute; reflexivity.
  - vm_compute; reflexivity.
  - vm_compute; reflexivity.
  - vm_compute; reflexivity.
  - vm_compute; reflexivity.
  - vm_compute; reflexivity.
Defined.

(** [release_checkout_fallback] when git knows no branch [main]. *)
Lemma release_checkout_fallback_witness :
  exists (m1 : Machine unit) (w : World unit),
    release host_new_branch env0 (releaser host_new_branch env0 false None)
      (boot (disk staging_root))
    = release_from_sync host_new_branch env0
        (releaser host_new_branch env0 false None) [staging_dir] workspace
        (ran m1 w [Exec "git checkout main" 1; Exec "git checkout -b main" 0]).
Proof.
  edestruct (release_checkout_fallback host_new_branch env0
               (releaser host_new_branch env0 false None)
               (boot (disk staging_root))) as [Hok _].
  - vm_compute; reflexivity.
  - vm_compute; reflexivity.
  - discriminate.
  - vm_compute; reflexivity.
  - eexists. eexists. apply Hok. reflexivity.
Defined.

(** C9, as stated, fails: [git checkout main] ends with the status of a
    fatal error, 128, and not with the status 1 that git gives for a branch
    it does not know; the failure is swallowed all the same, the branch is
    created, and the release is made. *)
Lemma checkout_fatal_error_swallowed :
  fst (run host_fatal_checkout env0 (disk staging_root))
  = Ret {| tags := Some ["go/v1.2.3"] |}
  /\ In (Exec "git checkout main" 128)
        (events (snd (run host_fatal_checkout env0 (disk staging_root))))
  /\ In (Exec "git checkout -b main" 0)
        (events (snd (run host_fatal_checkout env0 (disk staging_root)))).
Proof.
  split; [reflexivity|]. split; vm_compute; tauto.
Qed.

(** [syncModules_clearing] on a clone that holds a [go.mod] at its root,
    although what is staged is two submodules: the copy command is run on a
    workspace that is down to its [.git] entry. *)
Lemma syncModules_clearing_witness :
  let this := releaser host0 env0 false None in
  let m := boot (mirrored staging_subs clone_rooted) in
  exists t1 : node,
    syncModules host0 this workspace m
    = (_ <- shell host0 "cp -r /work/dist/go/* /tmpAb12Cd/widgets" ;; ret tt)%go
        (with_tree m t1)
    /\ fs_get t1 ["tmpAb12Cd"; "widgets"] = Some (Dir [git_entry])
    /\ fs_get t1 ["work"; "dist"; "go"] = Some staging_subs.
Proof.
  intros this m.
  destruct (syncModules_clearing host0 this workspace m (entries clone_rooted))
    as [t1 [Hrun [Htop [_ Hout]]]].
  - reflexivity.
  - exists t1. split; [exact Hrun|]. split.
    + apply Htop. discriminate.
    + rewrite (Hout ["work"; "dist"; "go"]); reflexivity.
Defined.

(** C1, as stated, fails in both directions, on a host whose [cp] copies
    what is staged.  A staged root module over a clone that has no [go.mod]
    at its root: the old file of the workspace survives.  Staged submodules
    over a clone that has a [go.mod] at its root: a kept file that is no
    submodule is removed. *)
Lemma syncModules_decided_by_workspace :
  let this := releaser host0 env0 false None in
  let m1 := boot (mirrored staging_root clone_flat) in
  let m2 := boot (mirrored staging_subs clone_rooted) in
  (fs_get (fs (world m1)) ["work"; "dist"; "go"; "go.mod"] <> None
   /\ fs_get (fs (world m1)) ["tmpAb12Cd"; "widgets"; "old.txt"]
      = Some (File "old")
   /\ fst (syncModules host0 this workspace m1) = Ret tt
   /\ fs_get (fs (world (snd (syncModules host0 this workspace m1))))
         ["tmpAb12Cd"; "widgets"; "old.txt"]
      = Some (File "old"))
  /\ (fs_get (fs (world m2)) ["work"; "dist"; "go"; "go.mod"] = None
      /\ fs_get (fs (world m2)) ["tmpAb12Cd"; "widgets"; "keep.txt"]
         = Some (File "kept")
      /\ fs_get (fs (world m2)) ["tmpAb12Cd"; "widgets"; "keep.txt"; "go.mod"]
         = None
      /\ fst (syncModules host0 this workspace m2) = Ret tt
      /\ fs_get (fs (world (snd (syncModules host0 this workspace m2))))
            ["tmpAb12Cd"; "widgets"; "keep.txt"]
         = None).
Proof.
  intros this m1 m2. split.
  - split; [discriminate|]. repeat split; reflexivity.
  - repeat split; reflexivity.
Qed.

End Runs.

(** * More of [go.ts] *)

(** ** Text *)

(** The character [c] occurs in [s]. *)
Fixpoint has_char (c : ascii) (s : string) : bool :=
  match s with
  | EmptyString => false
  | String a r => if Ascii.eqb a c then true else has_char c r
  end.

Lemma split_without (sep : ascii) (s : string) :
  has_char sep s = false -> Js.split sep s = [s].
Proof.
  induction s as [|a r IH]; simpl; [reflexivity|].
  destruct (Ascii.eqb a sep); [discriminate|].
  intros H. rewrite (IH H). reflexivity.
Qed.

Lemma split_at (sep : ascii) (a b : string) :
  has_char sep a = false ->
  Js.split sep (a +++ String sep b) = a :: Js.split sep b.
Proof.
  induction a as [|c r IH]; simpl.
  - intros _. rewrite Ascii.eqb_refl. reflexivity.
  - destruct (Ascii.eqb c sep); [discriminate|].
    intros H. rewrite (IH H). reflexivity.
Qed.

Lemma split_head_tail (sep : ascii) (s : string) :
  exists h t, Js.split sep s = h :: t.
Proof.
  induction s as [|a r [h [t IH]]]; simpl.
  - exists EmptyString, []. reflexivity.
  - destruct (Ascii.eqb a sep).
    + exists EmptyString, (Js.split sep r). reflexivity.
    + rewrite IH. exists (String a h), t. reflexivity.
Qed.

(** [s.split(sep).join(sep)] gives [s] back. *)
Lemma concat_split (sep : ascii) (s : string) :
  String.concat (String sep EmptyString) (Js.split sep s) = s.
Proof.
  induction s as [|a r IH]; simpl; [reflexivity|].
  destruct (Ascii.eqb a sep) eqn:Ha.
  - apply Ascii.eqb_eq in Ha. subst a.
    destruct (split_head_tail sep r) as [h [t Hs]].
    rewrite Hs in *. simpl. simpl in IH. rewrite IH. reflexivity.
  - destruct (split_head_tail sep r) as [h [t Hs]].
    rewrite Hs in *. destruct t as [|t0 t]; simpl in *.
    + rewrite IH. reflexivity.
    + rewrite <- IH. reflexivity.
Qed.

Lemma append_empty (s : string) : s +++ EmptyString = s.
Proof. induction s as [|c r IH]; simpl; [reflexivity|rewrite IH; reflexivity]. Qed.

Lemma find_absent {A : Type} (f : A -> bool) (l : list A) :
  (forall x, In x l -> f x = false) -> find f l = None.
Proof.
  induction l as [|x l IH]; simpl; intros H; [reflexivity|].
  rewrite (H x (or_introl eq_refl)). apply IH.
  intros y Hy. apply H. right. exact Hy.
Qed.

Lemma fs_get_absent_below (t : node) (l : location) (x : string) :
  fs_get t l = None -> fs_get t (l ++ [x]) = None.
Proof. intros H. rewrite fs_get_app, H. reflexivity. Qed.

Lemma fs_errno_cases (t : node) (p : location) :
  fs_errno t p = "ENOENT"%string \/ fs_errno t p = "ENOTDIR"%string.
Proof.
  revert t. induction p as [|x q IH]; intros t; simpl; [left; reflexivity|].
  destruct t as [c|es]; [right; reflexivity|].
  destruct (lookup x es) as [n|]; [apply IH|left; reflexivity].
Qed.

Lemma fs_errno_ENOTDIR (t : node) (p : location) :
  fs_get t p = None ->
  (fs_errno t p = "ENOTDIR"%string
   <-> exists (pre post : location) (c : string),
         p = pre ++ post /\ fs_get t pre = Some (File c)).
Proof.
  revert t. induction p as [|x q IH]; intros t H; simpl in *; [discriminate|].
  destruct t as [c|es].
  - split; [|reflexivity]. intros _. exists [], (x :: q), c.
    split; reflexivity.
  - destruct (lookup x es) as [n|] eqn:Hl.
    + rewrite (IH n H). split.
      * intros [pre [post [c [Hp Hg]]]]. exists (x :: pre), post, c.
        split; [simpl; rewrite Hp; reflexivity|]. simpl. rewrite Hl. exact Hg.
      * intros [pre [post [c [Hp Hg]]]].
        destruct pre as [|y pre]; [simpl in Hg; discriminate|].
        simpl in Hp. inversion Hp. subst y q.
        simpl in Hg. rewrite Hl in Hg.
        exists pre, post, c. split; [reflexivity|exact Hg].
    + split; [discriminate|].
      intros [pre [post [c [Hp Hg]]]].
      destruct pre as [|y pre]; [simpl in Hg; discriminate|].
      simpl in Hp. inversion Hp. subst y q.
      simpl in Hg. rewrite Hl in Hg. discriminate.
Qed.

Section More.

Context {E : Type}.
Variable host : Host E.
Variable env : Env.

(** ** The constructor *)

(** X1.  The constructor raises "git must be available" exactly when git
    is not found, whatever the environment; it does so before anything
    else, leaving the machine as it was. *)
Theorem constructor_requires_git :
  forall (d : option path) (m : Machine E),
    (has_program host "git" (world m) = false ->
     constructor host env d m
     = (Throw (Error "git must be available to create this release"), m))
    /\ (forall m',
           constructor host env d m
           = (Throw (Error "git must be available to create this release"), m') ->
           has_program host "git" (world m) = false).
Proof.
  intros d m. split.
  - intros H. unfold constructor, bind, tryCatch, which, throw. rewrite H.
    reflexivity.
  - intros m'. destruct (has_program host "git" (world m)) eqn:H;
      [|reflexivity].
    unfold constructor, bind, tryCatch, which. rewrite H.
    unfold nullishM, ret, throw, shell.
    destruct (GIT_USER_NAME env) as [n|].
    + destruct (GIT_USER_EMAIL env) as [e|].
      * destruct (String.eqb e EmptyString); [discriminate|].
        destruct (String.eqb n EmptyString); discriminate.
      * destruct (exec host "git config user.email" (world m)) as [[st out] w].
        destruct st; [|discriminate].
        destruct (String.eqb out EmptyString); [discriminate|].
        destruct (String.eqb n EmptyString); discriminate.
    + destruct (exec host "git config user.name" (world m)) as [[st out] w].
      destruct st; [|discriminate].
      destruct (GIT_USER_EMAIL env) as [e|].
      * destruct (String.eqb e EmptyString); [discriminate|].
        destruct (String.eqb out EmptyString); discriminate.
      * cbn [world].
        destruct (exec host "git config user.email" w) as [[st' out'] w'].
        destruct st'; [|discriminate].
        destruct (String.eqb out' EmptyString); [discriminate|].
        destruct (String.eqb out EmptyString); discriminate.
Qed.

(** X2.  With git at hand and both identity variables set to non-empty
    values, the constructor runs no command and reads nothing: it returns
    the releaser made of the environment and of the defaults ([dist/go],
    [main], no dry run unless [DRY_RUN] spells [true] in any letter case),
    on the machine as it was. *)
Theorem constructor_from_environment :
  forall (d : option path) (m : Machine E) (name email : string),
    has_program host "git" (world m) = true ->
    GIT_USER_NAME env = Some name ->
    GIT_USER_EMAIL env = Some email ->
    name <> EmptyString ->
    email <> EmptyString ->
    constructor host env d m
    = (Ret {| version := VERSION env;
              dir := match d with
                     | Some p => p
                     | None => Rel ["dist"; "go"]%string
                     end;
              dryRun := match DRY_RUN env with
                        | Some s => String.eqb (Js.toLowerCase s) "true"
                        | None => false
                        end;
              gitBranch := match GIT_BRANCH env with
                           | Some b => b
                           | None => "main"%string
                           end;
              gitUsername := name;
              gitUseremail := email;
              _cloner := cloneGitHub host env |},
       m).
Proof.
  intros d m name email Hgit Hn He Hname Hemail.
  unfold constructor, bind, tryCatch, which. rewrite Hgit, Hn, He.
  unfold nullishM, ret.
  rewrite (eqb_empty_false email Hemail), (eqb_empty_false name Hname).
  destruct d, (DRY_RUN env), (GIT_BRANCH env); reflexivity.
Qed.

(** X3.  When [GIT_USER_NAME] is not set and [git config user.name] exits
    with a non-zero status (what git does when no name is configured), the
    constructor raises the failure of that command, not the "Unable to
    detect" diagnostic, and does not go on to the e-mail address. *)
Theorem constructor_git_config_failure :
  forall (d : option path) (m : Machine E) (st : nat) (out : string)
         (w : World E),
    has_program host "git" (world m) = true ->
    GIT_USER_NAME env = None ->
    exec host "git config user.name" (world m) = (st, out, w) ->
    st <> 0 ->
    constructor host env d m
    = (Throw (ShellError "git config user.name" st),
       ran m w [Exec "git config user.name" st]).
Proof.
  intros d m st out w Hgit Hn Hx Hst.
  unfold constructor, bind, tryCatch, which. rewrite Hgit, Hn.
  unfold nullishM, ret. rewrite (shell_run host _ m st out w Hx).
  destruct st; [contradiction Hst; reflexivity|reflexivity].
Qed.

(** ** Discovery and resolution *)

(** X4.  When nothing is found at the staging directory, [release] fails
    with the error of the directory listing: [ENOENT] when a name on the
    path is missing, [ENOTDIR] when the path runs through a regular file.
    Nothing is logged, no command is run and the machine is as it was. *)
Theorem release_missing_staging :
  forall (this : GoReleaser E) (m : Machine E),
    fs_get (fs (world m)) (locate m (dir this)) = None ->
    release host env this m
    = (Throw (SystemError (fs_errno (fs (world m)) (locate m (dir this)))
                          (dir this)), m)
    /\ (fs_errno (fs (world m)) (locate m (dir this)) = "ENOTDIR"%string
        <-> exists (pre post : location) (c : string),
              locate m (dir this) = pre ++ post
              /\ fs_get (fs (world m)) pre = Some (File c))
    /\ (fs_errno (fs (world m)) (locate m (dir this)) = "ENOENT"%string
        \/ fs_errno (fs (world m)) (locate m (dir this)) = "ENOTDIR"%string).
Proof.
  intros this m H. split; [|split].
  - unfold release. unfold bind at 1.
    unfold release_clone. unfold bind at 1. unfold collectModules.
    unfold bind at 1. unfold existsSync at 1. cbv beta iota.
    unfold bind at 1. unfold readdirSync. rewrite H. reflexivity.
  - apply fs_errno_ENOTDIR. exact H.
  - apply fs_errno_cases.
Qed.

(** X5.  When the staging directory holds no [go.mod], neither at its root
    nor in a child, [release] fails with "Unable to detect repository from
    module files."; the only event is the heading of the module list, and
    no command is run. *)
Theorem release_no_modules :
  forall (this : GoReleaser E) (m : Machine E) (es : list (string * node)),
    fs_get (fs (world m)) (locate m (dir this)) = Some (Dir es) ->
    has_declaration m (dir this) = false ->
    (forall p, In p (names es) ->
               has_declaration m (join (dir this) p) = false) ->
    release host env this m
    = (Throw (Error "Unable to detect repository from module files."),
       logged m ["Detected modules:"%string]).
Proof.
  intros this m es Hdir Hroot Hsub.
  assert (Hmods : collectModules (dir this) m = (Ret [], m)).
  { rewrite (collectModules_run (dir this) m es Hdir). rewrite Hroot.
    replace (filter (fun p => has_declaration m (join (dir this) p)) (names es))
      with (@nil string); [reflexivity|].
    symmetry. induction (names es) as [|p ps IH]; [reflexivity|].
    simpl. rewrite (Hsub p (or_introl eq_refl)). apply IH.
    intros q Hq. apply Hsub. right. exact Hq. }
  unfold release. unfold bind at 1. unfold release_clone.
  unfold bind at 1. rewrite Hmods.
  unfold bind at 1. unfold log at 1.
  unfold bind at 1. cbn [forEach]. unfold ret at 1.
  unfold bind at 1. unfold extractRepo. unfold bind at 1.
  cbn [foldM]. unfold ret at 1. cbn [length Nat.eqb]. unfold throw, logged.
  reflexivity.
Qed.

(** A [go.mod] none of whose lines starts with [module ]. *)
Lemma resolveModule_no_declaration (md : path) (m : Machine E)
    (content : string) :
  fs_get (fs (world m)) (locate m (join md "go.mod")) = Some (File content) ->
  (forall line, In line (Js.split newline content) ->
                Js.startsWith line "module " = false) ->
  resolveModule md m
  = (Throw (Error ("No module declaration in file: "
                   +++ render (join md "go.mod"))), m).
Proof.
  intros Hf Hl. unfold resolveModule. cbv zeta. unfold bind at 1.
  unfold findModuleDeclaration. unfold bind at 1. unfold readFileSync.
  rewrite Hf. rewrite (find_absent _ _ Hl). reflexivity.
Qed.

Lemma resolve_prefix (m : Machine E) (f : path -> M E string) :
  forall (pre : list path) (rest : list path) (repos : list string),
    (forall x, In x pre -> exists r, f x m = (Ret r, m)) ->
    exists repos',
      foldM (fun repos module => r <- f module ;; ret (Js.set_add repos r))
            (pre ++ rest) repos m
      = foldM (fun repos module => r <- f module ;; ret (Js.set_add repos r))
              rest repos' m.
Proof.
  induction pre as [|x pre IH]; intros rest repos Hall.
  - exists repos. reflexivity.
  - destruct (Hall x (or_introl eq_refl)) as [r Hr].
    destruct (IH rest (Js.set_add repos r)) as [repos' H].
    { intros y Hy. apply Hall. right. exact Hy. }
    exists repos'. cbn [app foldM]. unfold bind at 1. unfold bind at 1.
    rewrite Hr. unfold ret at 1. exact H.
Qed.

(** X6.  Resolution stops at the first module whose [go.mod] has no line
    that starts with [module ]: when the modules before it resolve,
    [extractRepo] fails with "No module declaration in file:" followed by
    the path of that [go.mod], whatever the modules after it hold. *)
Theorem extractRepo_missing_declaration :
  forall (m : Machine E) (pre post : list path) (md : path) (content : string),
    (forall x, In x pre -> exists r, resolveModule x m = (Ret r, m)) ->
    fs_get (fs (world m)) (locate m (join md "go.mod")) = Some (File content) ->
    (forall line, In line (Js.split newline content) ->
                  Js.startsWith line "module " = false) ->
    extractRepo (pre ++ md :: post) m
    = (Throw (Error ("No module declaration in file: "
                     +++ render (join md "go.mod"))), m).
Proof.
  intros m pre post md content Hpre Hf Hl.
  unfold extractRepo. unfold bind at 1.
  destruct (resolve_prefix m resolveModule pre (md :: post) [] Hpre)
    as [repos' H].
  rewrite H. cbn [foldM]. unfold bind at 1. unfold bind at 1.
  rewrite (resolveModule_no_declaration md m content Hf Hl). reflexivity.
Qed.

(** The declaration that [findModuleDeclaration] picks, read as an import
    path. *)
Lemma resolveModule_of_line (md : path) (m : Machine E)
    (content name tail : string) :
  fs_get (fs (world m)) (locate m (join md "go.mod")) = Some (File content) ->
  find (fun line => Js.startsWith line "module ") (Js.split newline content)
  = Some ("module " +++ name +++ tail) ->
  has_char " " name = false ->
  tail = EmptyString \/ (exists t, tail = String " " t) ->
  resolveModule md m
  = (Ret (Js.interpolate (nth_error (Js.split "/" name) 1) +++ "/"
          +++ Js.interpolate (nth_error (Js.split "/" name) 2)), m).
Proof.
  intros Hf Hfind Hname Htail. unfold resolveModule. cbv zeta.
  unfold bind at 1. unfold findModuleDeclaration. unfold bind at 1.
  unfold readFileSync. rewrite Hf, Hfind. unfold ret at 1.
  assert (Hsecond : nth_error (Js.split " " ("module " +++ name +++ tail)) 1
                    = Some name).
  { change ("module " +++ name +++ tail)
      with ("module" +++ String " " (name +++ tail)).
    rewrite split_at by reflexivity. cbn [nth_error].
    destruct Htail as [->|[t ->]].
    - rewrite append_empty, (split_without " " name Hname). reflexivity.
    - rewrite (split_at " " name t Hname). reflexivity. }
  rewrite Hsecond. reflexivity.
Qed.

(** X7.  A declaration [module HOST/OWNER/REPO], with or without further
    segments and further words, resolves to [OWNER/REPO]. *)
Theorem resolveModule_owner_repo :
  forall (md : path) (m : Machine E)
         (content host_name owner repo more tail : string),
    fs_get (fs (world m)) (locate m (join md "go.mod")) = Some (File content) ->
    find (fun line => Js.startsWith line "module ") (Js.split newline content)
    = Some ("module " +++ (host_name +++ "/" +++ owner +++ "/" +++ repo +++ more)
            +++ tail) ->
    has_char "/" host_name = false ->
    has_char "/" owner = false ->
    has_char "/" repo = false ->
    has_char " " (host_name +++ "/" +++ owner +++ "/" +++ repo +++ more) = false ->
    more = EmptyString \/ (exists s, more = String "/" s) ->
    tail = EmptyString \/ (exists t, tail = String " " t) ->
    resolveModule md m = (Ret (owner +++ "/" +++ repo), m).
Proof.
  intros md m content host_name owner repo more tail
         Hf Hfind Hh Ho Hr Hsp Hmore Htail.
  rewrite (resolveModule_of_line md m content _ tail Hf Hfind Hsp Htail).
  change (host_name +++ "/" +++ owner +++ "/" +++ repo +++ more)
    with (host_name +++ String "/" (owner +++ String "/" (repo +++ more))).
  rewrite (split_at "/" host_name _ Hh), (split_at "/" owner _ Ho).
  cbn [nth_error].
  destruct Hmore as [->|[s ->]].
  - rewrite append_empty, (split_without "/" repo Hr). reflexivity.
  - rewrite (split_at "/" repo s Hr). reflexivity.
Qed.

(** X8.  An import path is not checked for its number of segments: a
    declaration [module NAME] without a slash resolves to the text
    [undefined/undefined], and [module HOST/OWNER] to [OWNER/undefined]. *)
Theorem resolveModule_short_path :
  forall (md : path) (m : Machine E) (content name tail : string),
    fs_get (fs (world m)) (locate m (join md "go.mod")) = Some (File content) ->
    find (fun line => Js.startsWith line "module ") (Js.split newline content)
    = Some ("module " +++ name +++ tail) ->
    has_char " " name = false ->
    tail = EmptyString \/ (exists t, tail = String " " t) ->
    (has_char "/" name = false ->
     resolveModule md m = (Ret "undefined/undefined"%string, m))
    /\ (forall host_name owner,
           name = host_name +++ "/" +++ owner ->
           has_char "/" host_name = false ->
           has_char "/" owner = false ->
           resolveModule md m = (Ret (owner +++ "/undefined"), m)).
Proof.
  intros md m content name tail Hf Hfind Hsp Htail.
  rewrite (resolveModule_of_line md m content name tail Hf Hfind Hsp Htail).
  split.
  - intros Hno. rewrite (split_without "/" name Hno). reflexivity.
  - intros host_name owner -> Hh Ho.
    change (host_name +++ "/" +++ owner)
      with (host_name +++ String "/" owner).
    rewrite (split_at "/" host_name owner Hh).
    rewrite (split_without "/" owner Ho). reflexivity.
Qed.

(** X9.  When there is at least one module and all of them resolve to the
    same repository, [extractRepo] returns it, on the machine as it was. *)
Theorem extractRepo_agreement :
  forall (m : Machine E) (modules : list path) (r : string),
    modules <> [] ->
    (forall md, In md modules -> resolveModule md m = (Ret r, m)) ->
    extractRepo modules m = (Ret r, m).
Proof.
  intros m modules r Hne Hall.
  assert (Hloop : forall mods, (forall md, In md mods ->
                                           resolveModule md m = (Ret r, m)) ->
            foldM (fun repos module =>
                     x <- resolveModule module ;; ret (Js.set_add repos x))
                  mods [r] m
            = (Ret [r], m)).
  { induction mods as [|md mods IH]; intros H; [reflexivity|].
    cbn [foldM]. unfold bind at 1. unfold bind at 1.
    rewrite (H md (or_introl eq_refl)). unfold ret at 1.
    unfold Js.set_add. cbn [Js.mem existsb]. rewrite String.eqb_refl.
    cbn [orb]. apply IH. intros x Hx. apply H. right. exact Hx. }
  destruct modules as [|md modules]; [contradiction Hne; reflexivity|].
  unfold extractRepo. unfold bind at 1. cbn [foldM].
  unfold bind at 1. unfold bind at 1.
  rewrite (Hall md (or_introl eq_refl)). unfold ret at 1.
  cbn [Js.set_add Js.mem existsb app].
  rewrite Hloop; [reflexivity|].
  intros x Hx. apply Hall. right. exact Hx.
Qed.

(** ** Cloning *)

(** X10.  With the default cloner and no token ([GITHUB_TOKEN] unset or
    empty), a run whose modules resolve fails with "GITHUB_TOKEN env
    variable is required"; the temporary directory has been made by then,
    but no command is run. *)
Theorem release_requires_token :
  forall (this : GoReleaser E) (m : Machine E) (modules : list path)
         (repo : string) (tmp : location) (w : World E),
    _cloner this = cloneGitHub host env ->
    Js.truthy (GITHUB_TOKEN env) = false ->
    collectModules (dir this) m = (Ret modules, m) ->
    extractRepo modules m = (Ret repo, m) ->
    mkdtemp host (tmpdir host) (world m) = (Some tmp, w) ->
    release host env this m
    = (Throw (Error "GITHUB_TOKEN env variable is required"),
       ran m w (map Log ("Detected modules:"%string
                         :: map (fun md => " - " +++ render md) modules))).
Proof.
  intros this m modules repo tmp w Hcl Htok Hmods Hrepo Htmp.
  set (m' := logged m ("Detected modules:"%string
                       :: map (fun md => " - " +++ render md) modules)).
  assert (Hrepo' : extractRepo modules m' = (Ret repo, m')).
  { exact (reads_run _ m' m _ (reads_extractRepo modules) eq_refl eq_refl Hrepo). }
  unfold release. unfold bind at 1. unfold release_clone.
  unfold bind at 1. rewrite Hmods.
  unfold bind at 1. unfold log at 1.
  unfold bind at 1. rewrite forEach_log.
  unfold bind at 1.
  match goal with
  | |- context [extractRepo modules ?x] => replace x with m'
  end.
  - rewrite Hrepo'. unfold bind at 1. unfold mkdtempSync.
    change (world m') with (world m). rewrite Htmp.
    cbv zeta. unfold bind at 1. rewrite Hcl. unfold cloneGitHub.
    rewrite Htok. reflexivity.
  - unfold m', logged. simpl. rewrite <- app_assoc. reflexivity.
Qed.

(** ** The commit message *)

(** The texts of a list, one after the other. *)
Definition flat (l : list string) : string :=
  fold_right String.append EmptyString l.

Lemma append_assoc (a b c : string) : (a +++ b) +++ c = a +++ b +++ c.
Proof. induction a as [|x a IH]; simpl; [reflexivity|rewrite IH; reflexivity]. Qed.

(** X11.  With a global version the generated commit message is
    [chore(release): VERSION] and no version file is read; without one it
    is [chore(release):] followed by [ NAME@VERSION] for each module in
    order, so it is [chore(release):] alone when there is no module. *)
Theorem createReleaseMessage_text :
  forall (this : GoReleaser E) (m : Machine E) (modules : list path),
    (forall v, version this = Some v -> v <> EmptyString ->
               createReleaseMessage this modules m
               = (Ret ("chore(release): " +++ v), m))
    /\ (forall versions,
           Js.truthy (version this) = false ->
           Forall2 (fun md v => extractVersion this md m = (Ret v, m))
                   modules versions ->
           createReleaseMessage this modules m
           = (Ret ("chore(release):"
                   +++ flat (map (fun e => " " +++ basename (fst e) +++ "@" +++ snd e)
                                 (combine modules versions))), m)).
Proof.
  intros this m modules. split.
  - intros v Hv Hne. unfold createReleaseMessage.
    rewrite Hv, (truthy_some v Hne). reflexivity.
  - intros versions Ht Hall. unfold createReleaseMessage. rewrite Ht.
    generalize "chore(release):"%string as msg.
    induction Hall as [|md v mds vs Hmd Hall IH]; intros msg.
    + simpl. unfold ret. rewrite append_empty. reflexivity.
    + cbn [foldM]. unfold bind at 1. unfold bind at 1. rewrite Hmd.
      unfold ret at 1. rewrite IH. cbn [combine map flat fold_right fst snd].
      f_equal. f_equal. fold (flat (map (fun e => " " +++ basename (fst e) +++ "@" +++ snd e)
                                 (combine mds vs))).
      rewrite !append_assoc. reflexivity.
Qed.

(** ** Change detection *)

(** X12.  The check for changes never fails.  When [git add .] exits with
    a non-zero status the tree counts as changed and [git diff-index] is
    not run; otherwise the tree counts as unchanged exactly when
    [git diff-index --exit-code HEAD --] exits with 0. *)
Theorem release_unchanged_outcomes :
  forall (m : Machine E) (st1 st2 : nat) (out1 out2 : string) (w1 w2 : World E),
    exec host "git add ." (world m) = (st1, out1, w1) ->
    exec host "git diff-index --exit-code HEAD --" w1 = (st2, out2, w2) ->
    release_unchanged host m
    = match st1, st2 with
      | S _, _ => (Ret false, ran m w1 [Exec "git add ." st1])
      | O, S _ =>
          (Ret false,
           ran m w2 [Exec "git add ." 0;
                     Exec "git diff-index --exit-code HEAD --" st2])
      | O, O =>
          (Ret true,
           ran m w2 [Exec "git add ." 0;
                     Exec "git diff-index --exit-code HEAD --" 0;
                     Log "No changes. Skipping release"])
      end.
Proof.
  intros m st1 st2 out1 out2 w1 w2 H1 H2.
  unfold release_unchanged, tryCatch. unfold bind at 1.
  rewrite (shell_run host _ m st1 out1 w1 H1).
  destruct st1 as [|st1]; [|reflexivity].
  unfold bind at 1.
  rewrite (shell_run host _ (ran m w1 [Exec "git add ." 0]) st2 out2 w2 H2).
  destruct st2 as [|st2].
  - unfold bind, log, ret, ran. simpl. rewrite <- !app_assoc. reflexivity.
  - unfold ret, ran. simpl. rewrite <- !app_assoc. reflexivity.
Qed.

(** ** Tagging and pushing *)

(** X13.  When the creation of the tags fails at some module, in either
    mode, [release_publish] raises that failure in the state the failure
    left, and nothing it has run is a [git push]: the tags created for the
    modules before stay, unpushed. *)
Theorem release_publish_tag_failure :
  forall (this : GoReleaser E) (m m' : Machine E) (modules : list path)
         (repoDir : path) (e : exn),
    mapM (fun md => createTag host this md repoDir) modules m = (Throw e, m') ->
    release_publish host this modules repoDir m = (Throw e, m')
    /\ exists evs, events m' = events m ++ evs
                   /\ Forall (never ["git push"%string]) evs.
Proof.
  intros this m m' modules repoDir e H. split.
  - unfold release_publish. unfold bind at 1. rewrite H. reflexivity.
  - assert (Hem : emits (never ["git push"%string])
                    (mapM (fun md => createTag host this md repoDir) modules)).
    { apply emits_mapM. intros md.
      apply emits_createTag. intros x st. reflexivity. }
    specialize (Hem m). rewrite H in Hem. exact Hem.
Qed.

Lemma no_event_of_kind (P : event -> Prop) (evs pre post : list event)
    (x : event) :
  Forall P evs -> ~ P x -> evs = pre ++ x :: post -> False.
Proof.
  intros HF Hx ->. apply Forall_app in HF. destruct HF as [_ HF].
  inversion HF. contradiction.
Qed.

Lemma first_event_of_kind (P : event -> Prop) (x : event) :
  forall (A B pre post : list event),
    Forall P A -> ~ P x -> A ++ B = pre ++ x :: post ->
    exists pre', pre = A ++ pre'.
Proof.
  induction A as [|a A IH]; intros B pre post HF Hx Heq.
  - exists pre. reflexivity.
  - inversion HF as [|? ? Ha HA]. subst.
    destruct pre as [|p pre]; simpl in Heq.
    + inversion Heq. subst. contradiction.
    + inversion Heq. subst.
      destruct (IH B pre post HA Hx H1) as [pre' ->].
      exists pre'. reflexivity.
Qed.

Lemma emits_release_publish (P : event -> Prop) (this : GoReleaser E)
    (modules : list path) (repoDir : path) :
  (forall e, P e) -> emits P (release_publish host this modules repoDir).
Proof.
  intros HP. unfold release_publish.
  apply emits_bind.
  { apply emits_mapM. intros md. apply emits_createTag. intros x st. apply HP. }
  intros tags. apply emits_bind; [|intros _; apply emits_ret].
  destruct (dryRun this).
  - apply emits_bind; [apply emits_log, HP|]. intros _.
    apply emits_forEach. intros t. apply emits_log, HP.
  - apply emits_bind; [apply emits_shell; intros st; apply HP|]. intros _.
    apply emits_forEach. intros t.
    apply emits_bind; [apply emits_shell; intros st; apply HP|].
    intros _. apply emits_ret.
Qed.

Lemma release_commit_done (this : GoReleaser E) (modules : list path)
    (m m' : Machine E) :
  release_commit host env this modules m = (Ret tt, m') ->
  exists evs msg,
    events m' = events m ++ evs ++ [Exec ("git commit -m " +++ msg) 0]
    /\ Forall (never ["git push"%string]) evs.
Proof.
  unfold release_commit. intros H.
  apply bind_ret_inv in H. destruct H as [o1 [m1 [H1 H]]].
  apply bind_ret_inv in H. destruct H as [o2 [m2 [H2 H]]].
  apply bind_ret_inv in H. destruct H as [msg [m3 [H3 H]]].
  apply bind_ret_inv in H. destruct H as [o4 [m4 [H4 H]]].
  unfold ret in H. inversion H. subst m4.
  apply (shell_ret_inv host) in H1. destruct H1 as [w1 [_ ->]].
  apply (shell_ret_inv host) in H2. destruct H2 as [w2 [_ ->]].
  apply (shell_ret_inv host) in H4. destruct H4 as [w4 [_ ->]].
  assert (Hm3 : events m3
                = events (ran (ran m w1 [Exec ("git config user.name "
                                               +++ gitUsername this) 0])
                            w2 [Exec ("git config user.email "
                                      +++ gitUseremail this) 0])).
  { pose proof (emits_nullishM (fun _ => False) (GIT_COMMIT_MESSAGE env)
                  (createReleaseMessage this modules)
                  (emits_reads _ _ (reads_createReleaseMessage this modules))
                  (ran (ran m w1 [Exec ("git config user.name "
                                        +++ gitUsername this) 0])
                     w2 [Exec ("git config user.email "
                               +++ gitUseremail this) 0])) as [evs [Hev HF]].
    rewrite H3 in Hev. simpl in Hev. destruct evs as [|x evs].
    - rewrite app_nil_r in Hev. exact Hev.
    - inversion HF. contradiction. }
  eexists [_; _], _. split.
  - unfold ran at 1. cbn [events]. rewrite Hm3. unfold ran. cbn [events].
    rewrite <- !app_assoc. reflexivity.
  - repeat constructor.
Qed.

(** X14.  With the default cloner, whatever the host does, a command that
    starts with [git push] is only ever run after a [git commit] that
    exited with 0 in the same run. *)
Theorem release_push_after_commit :
  forall (this : GoReleaser E) (m : Machine E) (pre post : list event)
         (c : string) (st : nat),
    _cloner this = cloneGitHub host env ->
    events (snd (release host env this m)) = events m ++ pre ++ Exec c st :: post ->
    String.prefix "git push" c = true ->
    exists msg, In (Exec ("git commit -m " +++ msg) 0) pre.
Proof.
  intros this m pre post c st Hcl Hev Hpush.
  set (P := never ["git push"%string]).
  assert (Hx : ~ P (Exec c st)).
  { unfold P, never, starts. simpl. rewrite Hpush. discriminate. }
  assert (Hstop : forall evs, Forall P evs ->
                              events m ++ evs = events m ++ pre ++ Exec c st :: post ->
                              False).
  { intros evs HF Heq. apply app_inv_head in Heq.
    exact (no_event_of_kind P evs pre post _ HF Hx Heq). }
  unfold release in Hev. unfold bind at 1 in Hev.
  destruct (release_clone host this m) as [[[mods rd]|x] m1] eqn:H1;
    destruct (events_of P _ m m1 _
                (emits_release_clone host env P this
                   (fun _ => eq_refl) (fun _ _ => eq_refl) Hcl) H1)
      as [e1 [E1 F1]];
    [|exfalso; simpl in Hev; rewrite E1 in Hev; exact (Hstop e1 F1 Hev)].
  unfold bind at 1 in Hev.
  destruct (release_checkout host this m1) as [[chk|x] m2] eqn:H2;
    destruct (events_of P _ m1 m2 _
                (emits_release_checkout host P this (fun _ _ => eq_refl)) H2)
      as [e2 [E2 F2]];
    [|exfalso; simpl in Hev; rewrite E2, E1, <- app_assoc in Hev;
      apply (Hstop (e1 ++ e2)); [apply Forall_app; split; assumption|exact Hev]].
  unfold release_from_sync in Hev. unfold bind at 1 in Hev.
  destruct (syncModules host this rd m2) as [[[]|x] m3] eqn:H3;
    destruct (events_of P _ m2 m3 _
                (emits_syncModules host P this (fun _ _ => eq_refl) rd) H3)
      as [e3 [E3 F3]];
    [|exfalso; simpl in Hev; rewrite E3, E2, E1, <- !app_assoc in Hev;
      apply (Hstop (e1 ++ e2 ++ e3));
      [repeat (apply Forall_app; split); assumption|exact Hev]].
  unfold bind at 1 in Hev.
  destruct (release_unchanged host m3) as [[b|x] m4] eqn:H4;
    destruct (events_of P _ m3 m4 _
                (emits_release_unchanged host P
                   (fun _ => eq_refl) (fun _ => eq_refl) (fun _ => eq_refl)) H4)
      as [e4 [E4 F4]];
    [|exfalso; simpl in Hev; rewrite E4, E3, E2, E1, <- !app_assoc in Hev;
      apply (Hstop (e1 ++ e2 ++ e3 ++ e4));
      [repeat (apply Forall_app; split); assumption|exact Hev]].
  destruct b.
  { exfalso. simpl in Hev. rewrite E4, E3, E2, E1, <- !app_assoc in Hev.
    apply (Hstop (e1 ++ e2 ++ e3 ++ e4));
      [repeat (apply Forall_app; split); assumption|exact Hev]. }
  unfold bind at 1 in Hev.
  destruct (release_commit host env this mods m4) as [[[]|x] m5] eqn:H5.
  - destruct (release_commit_done this mods m4 m5 H5) as [e5 [msg [E5 F5]]].
    destruct (emits_release_publish (fun _ => True) this mods rd
                (fun _ => I) m5) as [e6 [E6 _]].
    rewrite E6, E5, E4, E3, E2, E1 in Hev. rewrite <- !app_assoc in Hev.
    apply app_inv_head in Hev.
    set (A := e1 ++ e2 ++ e3 ++ e4 ++ e5).
    assert (HA : Forall P A).
    { unfold A. repeat (apply Forall_app; split); assumption. }
    assert (Hsplit : A ++ ([Exec ("git commit -m " +++ msg) 0] ++ e6)
                     = pre ++ Exec c st :: post).
    { rewrite <- Hev. unfold A. rewrite <- !app_assoc. reflexivity. }
    clearbody A.
    destruct (first_event_of_kind P (Exec c st) _ _ pre post HA Hx Hsplit)
      as [pre' Hpre].
    subst pre. rewrite <- app_assoc in Hsplit. apply app_inv_head in Hsplit.
    destruct pre' as [|p pre']; simpl in Hsplit.
    + inversion Hsplit as [[Hc Hs He]]. subst c. discriminate Hpush.
    + inversion Hsplit. subst p. exists msg.
      apply in_or_app. right. left. reflexivity.
  - exfalso.
    destruct (events_of P _ m4 m5 _
                (emits_release_commit host env P this
                   (fun _ _ => eq_refl) (fun _ _ => eq_refl) mods) H5)
      as [e5 [E5 F5]].
    simpl in Hev. rewrite E5, E4, E3, E2, E1, <- !app_assoc in Hev.
    apply (Hstop (e1 ++ e2 ++ e3 ++ e4 ++ e5));
      [repeat (apply Forall_app; split); assumption|exact Hev].
Qed.

(** ** Synchronisation *)


(** X16.  A copy that fails stops the release with the clearing done.
    When the copy command exits with a non-zero status on the cleared
    workspace (as [cp] does when the pattern matches nothing), what follows
    the checkout raises the failure of that command.  The command is the
    only event: nothing is staged, committed, tagged or pushed.  The world
    is the one the command left: the clearing is not undone. *)
Theorem release_copy_failure :
  forall (this : GoReleaser E) (modules : list path) (repoDir : path)
         (m : Machine E) (es : list (string * node)) (st : nat)
         (out : string) (w' : World E),
    let cmd := "cp -r " +++ render (dir this) +++ "/* " +++ render repoDir in
    let t1 := fs_update (fs (world m)) (locate m repoDir)
                (fun _ => Dir (cleared es)) in
    fs_get (fs (world m)) (locate m repoDir) = Some (Dir es) ->
    exec host cmd (world (with_tree m t1)) = (st, out, w') ->
    st <> 0 ->
    syncModules host this repoDir m
    = (Throw (ShellError cmd st), ran m w' [Exec cmd st])
    /\ release_from_sync host env this modules repoDir m
       = (Throw (ShellError cmd st), ran m w' [Exec cmd st]).
Proof.
  intros this modules repoDir m es st out w' cmd t1 Hws Hcp Hst.
  assert (Hsync : syncModules host this repoDir m
                  = (Throw (ShellError cmd st), ran m w' [Exec cmd st])).
  { rewrite (syncModules_clear host this repoDir m es Hws). fold t1. fold cmd.
    unfold bind. rewrite (shell_run host cmd (with_tree m t1) st out w' Hcp).
    destruct st as [|k]; [exfalso; apply Hst; reflexivity|]. reflexivity. }
  split; [exact Hsync|].
  unfold release_from_sync. unfold bind at 1. rewrite Hsync. reflexivity.
Qed.

(** ** The clone *)

Lemma basename_of_repository (owner repo : string) :
  has_char "/" owner = false ->
  has_char "/" repo = false ->
  repo <> EmptyString ->
  basename_of_text (owner +++ "/" +++ repo) = repo.
Proof.
  intros Ho Hr Hne. unfold basename_of_text, segments.
  change (owner +++ "/" +++ repo) with (owner +++ String "/" repo).
  rewrite (split_at "/" owner repo Ho), (split_without "/" repo Hr).
  cbn [filter]. rewrite (eqb_empty_false repo Hne). cbn [negb].
  destruct (negb (String.eqb owner EmptyString)); reflexivity.
Qed.

(** X17.  With the default cloner and a token, once the modules resolve to
    [OWNER/REPO] the one command of the clone stage is
    [git clone https://TOKEN@github.com/OWNER/REPO.git DIR], where [DIR] is
    the fresh temporary directory followed by [REPO]; when it exits with 0
    and has made that directory, the stage returns it and the working
    directory of the process is that directory. *)
Theorem release_clone_command :
  forall (this : GoReleaser E) (m : Machine E) (modules : list path)
         (owner repo tok out : string) (tmp : location) (w w' : World E)
         (es : list (string * node)),
    _cloner this = cloneGitHub host env ->
    GITHUB_TOKEN env = Some tok ->
    tok <> EmptyString ->
    collectModules (dir this) m = (Ret modules, m) ->
    extractRepo modules m = (Ret (owner +++ "/" +++ repo), m) ->
    has_char "/" owner = false ->
    has_char "/" repo = false ->
    repo <> EmptyString ->
    mkdtemp host (tmpdir host) (world m) = (Some tmp, w) ->
    exec host ("git clone https://" +++ tok +++ "@github.com/"
               +++ (owner +++ "/" +++ repo) +++ ".git "
               +++ render (Abs (tmp ++ [repo]))) w
    = (0, out, w') ->
    fs_get (fs w') (tmp ++ [repo]) = Some (Dir es) ->
    release_clone host this m
    = (Ret (modules, Abs (tmp ++ [repo])),
       {| world := {| fs := fs w'; cwd := tmp ++ [repo]; ext := ext w' |};
          events :=
            events m
            ++ map Log ("Detected modules:"%string
                        :: map (fun md => " - " +++ render md) modules)
            ++ [Exec ("git clone https://" +++ tok +++ "@github.com/"
                      +++ (owner +++ "/" +++ repo) +++ ".git "
                      +++ render (Abs (tmp ++ [repo]))) 0] |}).
Proof.
  intros this m modules owner repo tok out tmp w w' es
         Hcl Htok Htokne Hmods Hrepo Ho Hr Hne Htmp Hx Hdir.
  set (m' := logged m ("Detected modules:"%string
                       :: map (fun md => " - " +++ render md) modules)).
  assert (Hrepo' : extractRepo modules m' = (Ret (owner +++ "/" +++ repo), m')).
  { exact (reads_run _ m' m _ (reads_extractRepo modules) eq_refl eq_refl Hrepo). }
  unfold release_clone.
  unfold bind at 1. rewrite Hmods.
  unfold bind at 1. unfold log at 1.
  unfold bind at 1. rewrite forEach_log.
  unfold bind at 1.
  match goal with
  | |- context [extractRepo modules ?x] => replace x with m'
  end.
  2:{ unfold m', logged. simpl. rewrite <- app_assoc. reflexivity. }
  rewrite Hrepo'. unfold bind at 1. unfold mkdtempSync.
  change (world m') with (world m). rewrite Htmp. cbv zeta.
  rewrite (basename_of_repository owner repo Ho Hr Hne).
  unfold bind at 1. rewrite Hcl. unfold cloneGitHub.
  rewrite Htok, (truthy_some tok Htokne). cbn [negb Js.interpolate join].
  unfold bind at 1.
  rewrite (shell_run host _ {| world := w; events := events m' |} 0 out w' Hx).
  unfold ret at 1. unfold bind at 1. unfold chdir.
  unfold locate, ran. cbn [world fs cwd ext resolve]. rewrite Hdir.
  unfold ret, m', logged. cbn [events world]. rewrite <- !app_assoc.
  reflexivity.
Qed.

(** ** The commit *)

Lemma extractVersion_file (this : GoReleaser E) (md : path) (m : Machine E)
    (c : string) :
  Js.truthy (version this) = false ->
  fs_get (fs (world m)) (locate m (join md "version")) = Some (File c) ->
  extractVersion this md m = (Ret c, m).
Proof.
  intros Ht Hf. unfold extractVersion. rewrite Ht. cbv zeta.
  unfold bind, existsSync, readFileSync.
  rewrite Hf. cbv beta iota. rewrite Hf. reflexivity.
Qed.

Lemma extractVersion_missing (this : GoReleaser E) (md : path) (m : Machine E) :
  Js.truthy (version this) = false ->
  fs_get (fs (world m)) (locate m (join md "version")) = None ->
  extractVersion this md m
  = (Throw (Error ("Unable to determine version of module "
                   +++ render md +++ ". "
                   +++ "Either include a 'version' file, or specify a global version using the VERSION environment variable.")),
     m).
Proof.
  intros Ht Hf. unfold extractVersion. rewrite Ht. cbv zeta.
  unfold bind, existsSync, throw. rewrite Hf. reflexivity.
Qed.

Lemma createReleaseMessage_missing_version (this : GoReleaser E)
    (m : Machine E) (e : exn) :
  forall (pre post : list path) (md : path) (msg : string),
    (forall x, In x pre -> exists v, extractVersion this x m = (Ret v, m)) ->
    extractVersion this md m = (Throw e, m) ->
    foldM (fun message module =>
             let moduleName := basename module in
             moduleVersion <- extractVersion this module ;;
             ret (message +++ " " +++ moduleName +++ "@" +++ moduleVersion))
          (pre ++ md :: post) msg m
    = (Throw e, m).
Proof.
  induction pre as [|x pre IH]; intros post md msg Hpre Hmd.
  - cbn [app foldM]. unfold bind at 1. cbv zeta. unfold bind at 1.
    rewrite Hmd. reflexivity.
  - destruct (Hpre x (or_introl eq_refl)) as [v Hv].
    cbn [app foldM]. unfold bind at 1. cbv zeta. unfold bind at 1.
    rewrite Hv. unfold ret at 1. apply IH; [|exact Hmd].
    intros y Hy. apply Hpre. right. exact Hy.
Qed.

(** X18.  Without a commit message and without a global version, a module
    that has no [version] file stops the run before the commit: once the
    two [git config] commands have succeeded, [release_commit] raises the
    error that names that module, and [git commit] is not run. *)
Theorem release_commit_missing_version :
  forall (this : GoReleaser E) (m : Machine E) (pre post : list path)
         (md : path) (out1 out2 : string) (w1 w2 : World E),
    GIT_COMMIT_MESSAGE env = None ->
    Js.truthy (version this) = false ->
    exec host ("git config user.name " +++ gitUsername this) (world m)
    = (0, out1, w1) ->
    exec host ("git config user.email " +++ gitUseremail this) w1
    = (0, out2, w2) ->
    (forall x, In x pre ->
               exists c, fs_get (fs w2) (resolve (cwd w2) (join x "version"))
                         = Some (File c)) ->
    fs_get (fs w2) (resolve (cwd w2) (join md "version")) = None ->
    release_commit host env this (pre ++ md :: post) m
    = (Throw (Error ("Unable to determine version of module "
                     +++ render md +++ ". "
                     +++ "Either include a 'version' file, or specify a global version using the VERSION environment variable.")),
       ran m w2 [Exec ("git config user.name " +++ gitUsername this) 0;
                 Exec ("git config user.email " +++ gitUseremail this) 0]).
Proof.
  intros this m pre post md out1 out2 w1 w2 Hmsg Hver H1 H2 Hpre Hmd.
  set (m2 := ran m w2 [Exec ("git config user.name " +++ gitUsername this) 0;
                       Exec ("git config user.email " +++ gitUseremail this) 0]).
  assert (Hfail : createReleaseMessage this (pre ++ md :: post) m2
                  = (Throw (Error ("Unable to determine version of module "
                                   +++ render md +++ ". "
                                   +++ "Either include a 'version' file, or specify a global version using the VERSION environment variable.")),
                     m2)).
  { unfold createReleaseMessage. rewrite Hver.
    apply createReleaseMessage_missing_version.
    - intros x Hx. destruct (Hpre x Hx) as [c Hc]. exists c.
      apply (extractVersion_file this x m2 c Hver). exact Hc.
    - apply (extractVersion_missing this md m2 Hver). exact Hmd. }
  unfold release_commit. unfold bind at 1.
  rewrite (shell_run host _ m 0 out1 w1 H1).
  unfold bind at 1.
  rewrite (shell_run host _ (ran m w1 [Exec ("git config user.name "
                                             +++ gitUsername this) 0])
             0 out2 w2 H2).
  unfold bind at 1. rewrite Hmsg. unfold nullishM.
  replace (ran (ran m w1 [Exec ("git config user.name " +++ gitUsername this) 0])
             w2 [Exec ("git config user.email " +++ gitUseremail this) 0])
    with m2.
  - rewrite Hfail. reflexivity.
  - unfold m2, ran. cbn [events]. rewrite <- app_assoc. reflexivity.
Qed.

(** X19.  Discovery lists the staging directory first, when it holds a
    [go.mod], and then the children that hold one, in the order of the
    directory listing. *)
Theorem collectModules_order :
  forall (d : path) (m : Machine E) (es : list (string * node)),
    fs_get (fs (world m)) (locate m d) = Some (Dir es) ->
    collectModules d m
    = (Ret ((if has_declaration m d then [d] else [])
            ++ map (join d)
                 (filter (fun p => has_declaration m (join d p)) (names es))),
       m).
Proof. intros d m es H. exact (collectModules_run d m es H). Qed.

End More.

(** * More concrete runs *)

Module MoreFixture.

Import Fixture.
Local Open Scope string_scope.
Local Open Scope list_scope.

(** No git on the search path. *)
Definition host_no_git : Host unit :=
  {| exec := exec host0;
     has_program := fun _ _ => false;
     tmpdir := tmpdir host0;
     mkdtemp := mkdtemp host0 |}.

(** No user name is configured: [git config user.name] exits with 1. *)
Definition host_unconfigured : Host unit :=
  {| exec := fun cmd w =>
       if String.eqb cmd "git config user.name" then (1, EmptyString, w)
       else exec host0 cmd w;
     has_program := has_program host0;
     tmpdir := tmpdir host0;
     mkdtemp := mkdtemp host0 |}.

Definition env_unset : Env :=
  {| VERSION := None;
     GIT_BRANCH := None;
     DRY_RUN := None;
     GIT_USER_NAME := None;
     GIT_USER_EMAIL := None;
     GIT_COMMIT_MESSAGE := None;
     GITHUB_TOKEN := None |}.

(** Every variable the constructor reads is set. *)
Definition env_full : Env :=
  {| VERSION := Some "1.0.0";
     GIT_BRANCH := Some "release";
     DRY_RUN := Some "TRUE";
     GIT_USER_NAME := Some "bot";
     GIT_USER_EMAIL := Some "bot@example.com";
     GIT_COMMIT_MESSAGE := None;
     GITHUB_TOKEN := Some "tok" |}.

Definition env_no_token : Env :=
  {| VERSION := None;
     GIT_BRANCH := None;
     DRY_RUN := None;
     GIT_USER_NAME := Some "bot";
     GIT_USER_EMAIL := Some "bot@example.com";
     GIT_COMMIT_MESSAGE := None;
     GITHUB_TOKEN := Some EmptyString |}.

(** A staging directory without any module. *)
Definition staging_plain : node :=
  Dir [("README.md", File "nothing to release");
       ("docs", Dir [("index.md", File "docs")])].

(** The second module has a [go.mod] without a declaration. *)
Definition staging_undeclared : node :=
  Dir [("alpha", Dir [("go.mod", go_mod "github.com/acme/widgets/alpha");
                      ("version", File "0.1.0")]);
       ("beta", Dir [("go.mod", File ("go 1.15" +++ String newline "require x v1"));
                     ("version", File "0.2.0")])].

(** A module whose import path is one segment, and one of two segments. *)
Definition staging_short : node :=
  Dir [("one", Dir [("go.mod", File "module widgets")]);
       ("two", Dir [("go.mod", File "module github.com/acme")])].

(** The second module has no [version] file. *)
Definition staging_unversioned : node :=
  Dir [("alpha", Dir [("go.mod", go_mod "github.com/acme/widgets/alpha");
                      ("version", File "0.1.0")]);
       ("delta", Dir [("go.mod", go_mod "github.com/acme/widgets/delta")])].

(** A root module with two children, one of which is a module. *)
Definition staging_nested : node :=
  Dir [("zeta", Dir [("go.mod", go_mod "github.com/acme/widgets/zeta")]);
       ("go.mod", go_mod "github.com/acme/widgets");
       ("assets", Dir [("logo.svg", File "svg")])].

(** Nothing staged but a dot-name. *)
Definition staging_hidden : node :=
  Dir [(".keep", File EmptyString)].

(** The path to the staging directory runs through a regular file. *)
Definition disk_blocked : node :=
  Dir [("work", Dir [("dist", File "not a directory")])].



End MoreFixture.

Module MoreRuns.

Import Fixture.
Import MoreFixture.
Local Open Scope string_scope.
Local Open Scope list_scope.

Lemma constructor_requires_git_witness :
  constructor host_no_git env0 None (boot (disk staging_root))
  = (Throw (Error "git must be available to create this release"),
     boot (disk staging_root)).
Proof.
  apply (proj1 (constructor_requires_git host_no_git env0 None
                  (boot (disk staging_root)))).
  reflexivity.
Defined.

Lemma constructor_from_environment_witness :
  constructor host0 env_full None (boot (disk staging_root))
  = (Ret {| version := Some "1.0.0";
            dir := Rel ["dist"; "go"];
            dryRun := true;
            gitBranch := "release";
            gitUsername := "bot";
            gitUseremail := "bot@example.com";
            _cloner := cloneGitHub host0 env_full |},
     boot (disk staging_root)).
Proof.
  apply (constructor_from_environment host0 env_full None
           (boot (disk staging_root)) "bot" "bot@example.com").
  - reflexivity.
  - reflexivity.
  - reflexivity.
  - discriminate.
  - discriminate.
Defined.

Lemma constructor_git_config_failure_witness :
  constructor host_unconfigured env_unset None (boot (disk staging_root))
  = (Throw (ShellError "git config user.name" 1),
     ran (boot (disk staging_root)) (world (boot (disk staging_root)))
       [Exec "git config user.name" 1]).
Proof.
  apply (constructor_git_config_failure host_unconfigured env_unset None
           (boot (disk staging_root)) 1 EmptyString).
  - reflexivity.
  - reflexivity.
  - reflexivity.
  - discriminate.
Defined.

Lemma release_missing_staging_witness :
  release host0 env0 (releaser host0 env0 false None) (boot (Dir []))
  = (Throw (SystemError "ENOENT" staging_dir), boot (Dir []))
  /\ release host0 env0 (releaser host0 env0 false None) (boot disk_blocked)
     = (Throw (SystemError "ENOTDIR" staging_dir), boot disk_blocked).
Proof.
  split.
  - apply (proj1 (release_missing_staging host0 env0
                    (releaser host0 env0 false None) (boot (Dir []))
                    eq_refl)).
  - apply (proj1 (release_missing_staging host0 env0
                    (releaser host0 env0 false None) (boot disk_blocked)
                    eq_refl)).
Defined.

Lemma release_no_modules_witness :
  release host0 env0 (releaser host0 env0 false None)
    (boot (disk staging_plain))
  = (Throw (Error "Unable to detect repository from module files."),
     logged (boot (disk staging_plain)) ["Detected modules:"]).
Proof.
  apply (release_no_modules host0 env0 (releaser host0 env0 false None)
           (boot (disk staging_plain)) (entries staging_plain)).
  - reflexivity.
  - reflexivity.
  - intros p [H|[H|[]]]; subst p; reflexivity.
Defined.

Lemma extractRepo_missing_declaration_witness :
  extractRepo [join staging_dir "alpha"; join staging_dir "beta"]
    (boot (disk staging_undeclared))
  = (Throw (Error "No module declaration in file: /work/dist/go/beta/go.mod"),
     boot (disk staging_undeclared)).
Proof.
  apply (extractRepo_missing_declaration (boot (disk staging_undeclared))
           [join staging_dir "alpha"] [] (join staging_dir "beta")
           ("go 1.15" +++ String newline "require x v1")).
  - intros x [H|[]]. subst x. eexists. reflexivity.
  - reflexivity.
  - intros line [H|[H|[]]]; subst line; reflexivity.
Defined.

Lemma resolveModule_owner_repo_witness :
  resolveModule (join staging_dir "alpha") (boot (disk staging_subs))
  = (Ret "acme/widgets", boot (disk staging_subs)).
Proof.
  apply (resolveModule_owner_repo (join staging_dir "alpha")
           (boot (disk staging_subs))
           ("module github.com/acme/widgets/alpha" +++ String newline "go 1.15")
           "github.com" "acme" "widgets" "/alpha" EmptyString).
  - reflexivity.
  - reflexivity.
  - reflexivity.
  - reflexivity.
  - reflexivity.
  - reflexivity.
  - right. eexists. reflexivity.
  - left. reflexivity.
Defined.

Lemma resolveModule_short_path_witness :
  resolveModule (join staging_dir "one") (boot (disk staging_short))
  = (Ret "undefined/undefined", boot (disk staging_short))
  /\ resolveModule (join staging_dir "two") (boot (disk staging_short))
     = (Ret "acme/undefined", boot (disk staging_short)).
Proof.
  split.
  - apply (proj1 (resolveModule_short_path (join staging_dir "one")
                    (boot (disk staging_short)) "module widgets" "widgets"
                    EmptyString eq_refl eq_refl eq_refl (or_introl eq_refl))).
    reflexivity.
  - apply (proj2 (resolveModule_short_path (join staging_dir "two")
                    (boot (disk staging_short)) "module github.com/acme"
                    "github.com/acme" EmptyString eq_refl eq_refl eq_refl
                    (or_introl eq_refl)) "github.com" "acme").
    + reflexivity.
    + reflexivity.
    + reflexivity.
Defined.

Lemma extractRepo_agreement_witness :
  extractRepo [join staging_dir "alpha"; join staging_dir "beta"]
    (boot (disk staging_subs))
  = (Ret "acme/widgets", boot (disk staging_subs)).
Proof.
  apply (extractRepo_agreement (boot (disk staging_subs))
           [join staging_dir "alpha"; join staging_dir "beta"] "acme/widgets").
  - discriminate.
  - intros md [H|[H|[]]]; subst md; reflexivity.
Defined.

Lemma release_requires_token_witness :
  release host0 env_no_token (releaser host0 env_no_token false None)
    (boot (disk staging_subs))
  = (Throw (Error "GITHUB_TOKEN env variable is required"),
     ran (boot (disk staging_subs)) (world (boot (disk staging_subs)))
       [Log "Detected modules:"; Log " - /work/dist/go/alpha";
        Log " - /work/dist/go/beta"]).
Proof.
  eapply (release_requires_token host0 env_no_token
           (releaser host0 env_no_token false None) (boot (disk staging_subs))
           [join staging_dir "alpha"; join staging_dir "beta"] "acme/widgets"
           ["tmpAb12Cd"]).
  - reflexivity.
  - reflexivity.
  - reflexivity.
  - reflexivity.
  - reflexivity.
Defined.

Lemma createReleaseMessage_text_witness :
  createReleaseMessage (releaser host0 env0 false (Some "9.9.9"))
    [join staging_dir "alpha"; join staging_dir "beta"]
    (boot (disk staging_subs))
  = (Ret "chore(release): 9.9.9", boot (disk staging_subs))
  /\ createReleaseMessage (releaser host0 env0 false None)
       [join staging_dir "alpha"; join staging_dir "beta"]
       (boot (disk staging_subs))
     = (Ret "chore(release): alpha@0.1.0 beta@0.2.0", boot (disk staging_subs)).
Proof.
  split.
  - apply (proj1 (createReleaseMessage_text
                    (releaser host0 env0 false (Some "9.9.9"))
                    (boot (disk staging_subs))
                    [join staging_dir "alpha"; join staging_dir "beta"])
             "9.9.9").
    + reflexivity.
    + discriminate.
  - apply (proj2 (createReleaseMessage_text
                    (releaser host0 env0 false None)
                    (boot (disk staging_subs))
                    [join staging_dir "alpha"; join staging_dir "beta"])
             ["0.1.0"; "0.2.0"]).
    + reflexivity.
    + repeat constructor.
Defined.

Lemma release_unchanged_outcomes_witness :
  release_unchanged host0 (boot (disk staging_root))
  = (Ret false,
     ran (boot (disk staging_root)) (world (boot (disk staging_root)))
       [Exec "git add ." 0; Exec "git diff-index --exit-code HEAD --" 1]).
Proof.
  eapply (release_unchanged_outcomes host0 (boot (disk staging_root))
           0 1 EmptyString EmptyString).
  - reflexivity.
  - reflexivity.
Defined.

Lemma release_publish_tag_failure_witness :
  exists (e : exn) (m' : Machine unit),
    release_publish host0 (releaser host0 env0 false None)
      [join staging_dir "alpha"; join staging_dir "delta"] workspace
      (boot (mirrored staging_unversioned clone_flat))
    = (Throw e, m')
    /\ exists evs,
         events m' = events (boot (mirrored staging_unversioned clone_flat)) ++ evs
         /\ Forall (never ["git push"]) evs.
Proof.
  eexists. eexists.
  eapply (release_publish_tag_failure host0 (releaser host0 env0 false None)).
  vm_compute. reflexivity.
Defined.


Lemma release_copy_failure_witness :
  let m := boot (mirrored staging_hidden clone_rooted) in
  let cleared_world :=
    {| fs := mirrored staging_hidden (Dir [git_entry]);
       cwd := ["work"];
       ext := tt |} in
  syncModules host0 (releaser host0 env0 false None) workspace m
  = (Throw (ShellError "cp -r /work/dist/go/* /tmpAb12Cd/widgets" 1),
     ran m cleared_world [Exec "cp -r /work/dist/go/* /tmpAb12Cd/widgets" 1])
  /\ release_from_sync host0 env0 (releaser host0 env0 false None)
       [staging_dir] workspace m
     = (Throw (ShellError "cp -r /work/dist/go/* /tmpAb12Cd/widgets" 1),
        ran m cleared_world
          [Exec "cp -r /work/dist/go/* /tmpAb12Cd/widgets" 1]).
Proof.
  intros m cleared_world.
  apply (release_copy_failure host0 env0 (releaser host0 env0 false None)
           [staging_dir] workspace m (entries clone_rooted) 1 EmptyString
           cleared_world).
  - reflexivity.
  - reflexivity.
  - discriminate.
Defined.

Lemma release_push_after_commit_witness :
  exists msg : string,
    In (Exec ("git commit -m " +++ msg) 0)
       (firstn 11 (events (snd (run host0 env0 (disk staging_root))))).
Proof.
  apply (release_push_after_commit host0 env0
           (releaser host0 env0 false None) (boot (disk staging_root))
           (firstn 11 (events (snd (run host0 env0 (disk staging_root)))))
           (skipn 12 (events (snd (run host0 env0 (disk staging_root)))))
           "git push origin main" 0).
  - reflexivity.
  - vm_compute. reflexivity.
  - reflexivity.
Defined.

Lemma release_clone_command_witness :
  release_clone host0 (releaser host0 env0 false None)
    (boot (disk staging_subs))
  = (Ret ([join staging_dir "alpha"; join staging_dir "beta"], workspace),
     {| world := {| fs := mirrored staging_subs clone_flat;
                    cwd := ["tmpAb12Cd"; "widgets"];
                    ext := tt |};
        events := [Log "Detected modules:"; Log " - /work/dist/go/alpha";
                   Log " - /work/dist/go/beta";
                   Exec "git clone https://tok@github.com/acme/widgets.git /tmpAb12Cd/widgets" 0] |}).
Proof.
  eapply (release_clone_command host0 env0 (releaser host0 env0 false None)
           (boot (disk staging_subs))
           [join staging_dir "alpha"; join staging_dir "beta"]
           "acme" "widgets" "tok" EmptyString ["tmpAb12Cd"]
           (world (boot (disk staging_subs)))
           {| fs := mirrored staging_subs clone_flat; cwd := ["work"]; ext := tt |}
           (entries clone_flat)).
  - reflexivity.
  - reflexivity.
  - discriminate.
  - reflexivity.
  - reflexivity.
  - reflexivity.
  - reflexivity.
  - discriminate.
  - reflexivity.
  - reflexivity.
  - reflexivity.
Defined.

Lemma release_commit_missing_version_witness :
  release_commit host0 env0 (releaser host0 env0 false None)
    [join staging_dir "alpha"; join staging_dir "delta"]
    (boot (mirrored staging_unversioned clone_flat))
  = (Throw (Error "Unable to determine version of module /work/dist/go/delta. Either include a 'version' file, or specify a global version using the VERSION environment variable."),
     ran (boot (mirrored staging_unversioned clone_flat))
       (world (boot (mirrored staging_unversioned clone_flat)))
       [Exec "git config user.name bot" 0;
        Exec "git config user.email bot@example.com" 0]).
Proof.
  eapply (release_commit_missing_version host0 env0
           (releaser host0 env0 false None)
           (boot (mirrored staging_unversioned clone_flat))
           [join staging_dir "alpha"] [] (join staging_dir "delta")
           EmptyString EmptyString).
  - reflexivity.
  - reflexivity.
  - reflexivity.
  - reflexivity.
  - intros x [H|[]]. subst x. eexists. reflexivity.
  - reflexivity.
Defined.

Lemma collectModules_order_witness :
  collectModules staging_dir (boot (disk staging_nested))
  = (Ret [staging_dir; join staging_dir "zeta"], boot (disk staging_nested)).
Proof.
  apply (collectModules_order staging_dir (boot (disk staging_nested))
           (entries staging_nested)).
  reflexivity.
Defined.

End MoreRuns.
